(** * E3PO front-end controllers: theme manager and dynamic navbar breakpoint

    A shallow embedding of [src/js/script.js].  Two classes are modelled,
    each in a module of its own name:

    - [ThemeManager]: the closed-looking table [themes], a persisted
      preference in [localStorage], the [prefers-color-scheme] media query
      and the DOM nodes the manager writes to;
    - [DynamicNavbarBreakpoint]: the width measurement of the navbar and the
      toggle of the Bootstrap class [navbar-expand-lg].

    Further modules follow the same plan for the rest of the script:
    [ThemeEvents] and [BreakpointLayout] run the two classes over sequences
    of events; [ScrollToTopButton], [Navigation] ([MobileMenuManager] and
    [SmoothScrollWithOffset]), [CodeBlockManager], [ContactForm]
    ([SupabaseManager] and [ContactFormHandler]) and [ContactValidation]
    (the script of the contact page) model the other handlers.  Each
    [...Props] module holds the properties of the module it is named after.

    JavaScript notions shared by both (truthiness, [DOMTokenList], numbers,
    [parseFloat]) live in module [JS].  Numbers are IEEE 754 binary64
    values, computed with the operations of [SpecFloat]; [NumberProps] shows
    where they agree with the integers. *)

From Stdlib Require Import ZArith QArith Ascii SpecFloat.
From stdpp Require Import base option strings list gmap.

Local Open Scope string_scope.
Local Open Scope list_scope.

(* ================================================================== *)
(** ** JavaScript and DOM primitives *)
(* ================================================================== *)

Module JS.

(** A value that is a string or [null]/[undefined] ([None]).  Both
    [localStorage.getItem] (string or [null]) and [dataset.x] (string or
    [undefined]) have this shape. *)
Definition nullable := option string.

(** [ToBoolean] on a nullable string: [null], [undefined] and the empty
    string are falsy. *)
Definition truthy (v : nullable) : bool :=
  match v with
  | None => false
  | Some s => negb (String.eqb s EmptyString)
  end.

(** Template-literal interpolation [`${v}`] of a string or [undefined]. *)
Definition interpolate (v : nullable) : string :=
  match v with
  | None => "undefined"
  | Some s => s
  end.

(** Assignment to a nullable [DOMString] attribute such as
    [Node.textContent]: [null] and [undefined] act as the empty string. *)
Definition to_nullable_DOMString (v : nullable) : string :=
  match v with
  | None => EmptyString
  | Some s => s
  end.

(** [DOMTokenList]: an ordered set of class names. *)
Definition classList_contains (tok : string) (cl : list string) : bool :=
  bool_decide (tok ∈ cl).

Definition classList_add (tok : string) (cl : list string) : list string :=
  if classList_contains tok cl then cl else cl ++ [tok].

Definition classList_remove (tok : string) (cl : list string) : list string :=
  filter (λ t, t ≠ tok) cl.

(** [classList.toggle(tok, force)] with the [force] argument given. *)
Definition classList_toggle (tok : string) (force : bool) (cl : list string)
  : list string :=
  if force then classList_add tok cl else classList_remove tok cl.

(** The properties every object literal inherits from
    [Object.prototype]; each of them is a function or an object, hence
    truthy, and none has a [label] or an [icon]. *)
Definition Object_prototype : list string :=
  [ "constructor"; "__proto__"; "hasOwnProperty"; "isPrototypeOf";
    "propertyIsEnumerable"; "toLocaleString"; "toString"; "valueOf";
    "__defineGetter__"; "__defineSetter__"; "__lookupGetter__";
    "__lookupSetter__" ].

(** *** Numbers

    A JavaScript number is an IEEE 754 binary64 value: [spec_float] at
    precision 53 and maximal exponent 1024, with the operations of
    [SpecFloat] (round to nearest, ties to even).  Sums and products are
    rounded, may overflow to an infinity and underflow to a subnormal or a
    zero; the two zeros are distinct values. *)
Definition prec : Z := 53.
Definition emax : Z := 1024.

Definition number : Type := spec_float.

Definition NaN : number := S754_nan.
Definition Infinity (negative : bool) : number := S754_infinity negative.

(** The number nearest to an integer. *)
Definition of_Z (z : Z) : number := binary_normalize prec emax z 0 false.

(** The number an attribute of WebIDL type [long] ([offsetWidth],
    [clientWidth], [innerHeight]) is read as: a 32-bit integer, so a value
    of the layout outside that range reaches the script as the nearest
    bound. *)
Definition to_long (z : Z) : Z := Z.max (-2147483648) (Z.min z 2147483647).

Definition of_long (z : Z) : number := of_Z (to_long z).

(** [ToBoolean] on a number: [NaN], [+0] and [-0] are falsy. *)
Definition number_truthy (x : number) : bool :=
  match x with
  | S754_nan | S754_zero _ => false
  | S754_infinity _ | S754_finite _ _ _ => true
  end.

(** [x || y] on numbers. *)
Definition number_or (x y : number) : number :=
  if number_truthy x then x else y.

Definition add (x y : number) : number := SFadd prec emax x y.
Definition sub (x y : number) : number := SFsub prec emax x y.
Definition mul (x y : number) : number := SFmul prec emax x y.

(** [x <= y], [x < y] and [x > y]; every comparison with [NaN] is false. *)
Definition le (x y : number) : bool := SFleb x y.
Definition lt (x y : number) : bool := SFltb x y.
Definition gt (x y : number) : bool := SFltb y x.

(** The number nearest to [n / d]. *)
Definition of_ratio (negative : bool) (n d : positive) : number :=
  let '(mz, ez, lz) := SFdiv_core_binary prec emax (Zpos n) 0 (Zpos d) 0 in
  binary_round_aux prec emax negative mz ez lz.

(** The number nearest to [mantissa * 10 ^ scale], the value of a decimal
    literal; a literal of value zero keeps its sign. *)
Definition of_decimal (negative : bool) (mantissa scale : Z) : number :=
  match mantissa with
  | Zpos m =>
      match scale with
      | Zneg k => of_ratio negative m (10 ^ k)
      | _ => binary_normalize prec emax (cond_Zopp negative (Zpos m * 10 ^ scale)) 0 false
      end
  | _ => S754_zero negative
  end.

(** The mantissa [p] shifted left by [k] binary places, and the
    representation of a non-zero integer of at most 53 bits: a mantissa of
    exactly 53 bits and the exponent that goes with it. *)
Definition shl (p : positive) (k : Z) : positive :=
  match k with
  | Zpos j => Pos.iter xO p j
  | _ => p
  end.

Definition canonical (negative : bool) (p : positive) : number :=
  S754_finite negative (shl p (53 - Zpos (digits2_pos p)))
    (Zpos (digits2_pos p) - 53).

Definition finite (x : number) : bool :=
  match x with
  | S754_zero _ | S754_finite _ _ _ => true
  | S754_infinity _ | S754_nan => false
  end.

(** *** parseFloat

    The longest prefix of the trimmed input that is a
    [StrDecimalLiteral]: a sign, then [Infinity] or decimal digits with an
    optional fraction and an optional exponent; its value is rounded to the
    nearest number, ties to even (the choice ECMAScript allows for every
    literal and the engines make).  Strings are sequences of UTF-8 bytes; the white space
    trimmed is [StrWhiteSpaceChar]: the ASCII controls TAB to CR and the
    space, U+00A0, U+1680, U+2000 to U+200A, U+2028, U+2029, U+202F,
    U+205F, U+3000 and U+FEFF in their encoded form. *)
Definition white_space_1 (a : N) : bool :=
  ((9 <=? a) && (a <=? 13) || (a =? 32))%N.

Definition white_space_2 (a b : N) : bool :=
  ((a =? 194) && (b =? 160))%N.

Definition white_space_3 (a b c : N) : bool :=
  ((a =? 225) && (b =? 154) && (c =? 128)
   || (a =? 226) && (b =? 128)
      && ((128 <=? c) && (c <=? 138) || (c =? 168) || (c =? 169) || (c =? 175))
   || (a =? 226) && (b =? 129) && (c =? 159)
   || (a =? 227) && (b =? 128) && (c =? 128)
   || (a =? 239) && (b =? 187) && (c =? 191))%N.

Fixpoint trim_start (s : string) : string :=
  match s with
  | String c1 r1 =>
      let a := Ascii.N_of_ascii c1 in
      if white_space_1 a then trim_start r1
      else if (a <? 128)%N then s
      else
        match r1 with
        | String c2 r2 =>
            let b := Ascii.N_of_ascii c2 in
            if white_space_2 a b then trim_start r2
            else
              match r2 with
              | String c3 r3 =>
                  if white_space_3 a b (Ascii.N_of_ascii c3)
                  then trim_start r3 else s
              | EmptyString => s
              end
        | EmptyString => s
        end
  | EmptyString => s
  end.

Definition digit_of (c : Ascii.ascii) : option Z :=
  let n := Ascii.N_of_ascii c in
  if ((48 <=? n) && (n <=? 57))%N then Some (Z.of_N n - 48)%Z else None.

(** The leading run of decimal digits and what follows it. *)
Fixpoint take_digits (s : string) : list Z * string :=
  match s with
  | String c r =>
      match digit_of c with
      | Some d => let '(ds, r') := take_digits r in (d :: ds, r')
      | None => ([], s)
      end
  | EmptyString => ([], s)
  end.

Definition digits_value (ds : list Z) : Z :=
  fold_left (λ acc d, 10 * acc + d)%Z ds 0%Z.

(** [ExponentPart]: [e] or [E], an optional sign and at least one digit;
    anything else is not part of the literal and counts as exponent 0. *)
Definition exponent_part (s : string) : Z :=
  match s with
  | String c r =>
      if bool_decide (c = "e"%char ∨ c = "E"%char) then
        let '(negative, r) :=
          match r with
          | String "-" r' => (true, r')
          | String "+" r' => (false, r')
          | _ => (false, r)
          end in
        let e := digits_value (take_digits r).1 in
        if negative then (- e)%Z else e
      else 0%Z
  | EmptyString => 0%Z
  end.

Definition strip_prefix (p s : string) : option string :=
  if String.prefix p s
  then Some (String.substring (String.length p) (String.length s - String.length p) s)
  else None.

Definition parseFloat (input : string) : number :=
  let s := trim_start input in
  let '(negative, s) :=
    match s with
    | String "-" r => (true, r)
    | String "+" r => (false, r)
    | _ => (false, s)
    end in
  match strip_prefix "Infinity" s with
  | Some _ => Infinity negative
  | None =>
      let '(int_digits, s) := take_digits s in
      let '(frac_digits, s) :=
        match s with
        | String "." r => take_digits r
        | _ => ([], s)
        end in
      match int_digits ++ frac_digits with
      | [] => NaN
      | ds =>
          of_decimal negative (digits_value ds)
            (exponent_part s - Z.of_nat (length frac_digits))
      end
  end.

End JS.

(* ================================================================== *)
(** ** class ThemeManager *)
(* ================================================================== *)

Module ThemeManager.

Import JS.

Record ThemeData := {
  name : string;
  icon : string;
  label : string
}.

(** [this.themes], the own properties of the object literal. *)
Definition themes : gmap string ThemeData :=
  {[ "light" := {| name := "Light"; icon := "bi-sun"; label := "Light" |};
     "dark" := {| name := "Dark"; icon := "bi-moon"; label := "Dark" |};
     "high-contrast" :=
       {| name := "High Contrast"; icon := "bi-circle-half";
          label := "High Contrast" |} ]}.

(** The own keys of [themes]: the supported variants. *)
Definition supported : list string := [ "light"; "dark"; "high-contrast" ].

(** The result of the property read [this.themes[key]]: an own entry, a
    member inherited through the prototype chain, or [undefined]. *)
Inductive property :=
| Own (d : ThemeData)
| Inherited
| Undefined.

Definition themes_get (key : string) : property :=
  match themes !! key with
  | Some d => Own d
  | None => if bool_decide (key ∈ Object_prototype) then Inherited else Undefined
  end.

Definition property_truthy (p : property) : bool :=
  match p with
  | Undefined => false
  | _ => true
  end.

(** [p.label] and [p.icon] for a truthy [p]. *)
Definition property_label (p : property) : nullable :=
  match p with
  | Own d => Some (label d)
  | _ => None
  end.

Definition property_icon (p : property) : nullable :=
  match p with
  | Own d => Some (icon d)
  | _ => None
  end.

(** *** The page, as far as the manager touches it *)

(** [#themeDropdown] with the two descendants [updateThemeUI] looks for:
    the [<i>] icon and [#current-theme]; either may be missing.  They are
    separate nodes, neither inside the other, as in the markup of the site. *)
Record ThemeButton := {
  button_attributes : gmap string string;
  icon_className : option string;
  current_theme_textContent : option string
}.

(** A [.theme-option] entry of the dropdown. *)
Record ThemeOption := {
  dataset_theme : nullable;
  option_classList : list string
}.

Record Document := {
  documentElement_attributes : gmap string string;
  highlight_js_theme_href : option string;   (* None: no #highlight-js-theme *)
  hero_svg_src : option string;              (* None: no .hero-svg-icon *)
  themeDropdown : option ThemeButton;        (* None: no #themeDropdown *)
  theme_options : list ThemeOption;
  themeDropdown_focused : bool
}.

(** [window.matchMedia]: absent in old browsers, otherwise a function from
    a media query to the [matches] flag of the resulting list. *)
Record Window := {
  matchMedia : option (string → bool)
}.

(** The manager together with the two stores it reads and writes. *)
Record State := {
  currentTheme : string;
  document : Document;
  localStorage : gmap string string
}.

Definition getItem (key : string) (s : State) : nullable :=
  localStorage s !! key.

Definition setItem (key value : string) (s : State) : State :=
  {| currentTheme := currentTheme s;
     document := document s;
     localStorage := <[key := value]> (localStorage s) |}.

Definition with_document (f : Document → Document) (s : State) : State :=
  {| currentTheme := currentTheme s;
     document := f (document s);
     localStorage := localStorage s |}.

Definition with_currentTheme (t : string) (s : State) : State :=
  {| currentTheme := t;
     document := document s;
     localStorage := localStorage s |}.

(** *** Methods *)

Definition lightTheme : string :=
  "https://cdnjs.cloudflare.com/ajax/libs/highlight.js/11.11.1/styles/github.min.css".
Definition darkTheme : string :=
  "https://cdnjs.cloudflare.com/ajax/libs/highlight.js/11.11.1/styles/github-dark.min.css".

Definition updateCodeTheme (theme : string) (d : Document) : Document :=
  match highlight_js_theme_href d with
  | None => d
  | Some _ =>
      {| documentElement_attributes := documentElement_attributes d;
         highlight_js_theme_href :=
           Some (if String.eqb theme "dark" || String.eqb theme "high-contrast"
                 then darkTheme else lightTheme);
         hero_svg_src := hero_svg_src d;
         themeDropdown := themeDropdown d;
         theme_options := theme_options d;
         themeDropdown_focused := themeDropdown_focused d |}
  end.

Definition svgPath (theme : string) : string :=
  if String.eqb theme "dark" then "/img/undraw_road_to_knowledge_dark.svg"
  else if String.eqb theme "high-contrast"
       then "/img/undraw_road_to_knowledge_high_contrast.svg"
       else "/img/undraw_road_to_knowledge_light.svg".

Definition updateHeroSvg (theme : string) (d : Document) : Document :=
  match hero_svg_src d with
  | None => d
  | Some _ =>
      {| documentElement_attributes := documentElement_attributes d;
         highlight_js_theme_href := highlight_js_theme_href d;
         hero_svg_src := Some (svgPath theme);
         themeDropdown := themeDropdown d;
         theme_options := theme_options d;
         themeDropdown_focused := themeDropdown_focused d |}
  end.

Definition setRootAttribute (k v : string) (d : Document) : Document :=
  {| documentElement_attributes := <[k := v]> (documentElement_attributes d);
     highlight_js_theme_href := highlight_js_theme_href d;
     hero_svg_src := hero_svg_src d;
     themeDropdown := themeDropdown d;
     theme_options := theme_options d;
     themeDropdown_focused := themeDropdown_focused d |}.

Definition applyTheme (theme : string) (d : Document) : Document :=
  updateHeroSvg theme (updateCodeTheme theme (setRootAttribute "data-bs-theme" theme d)).

(** The body of [if (themeButton && currentThemeData) { ... }]. *)
Definition updateButton (p : property) (b : ThemeButton) : ThemeButton :=
  {| button_attributes :=
       <["aria-label" := "Thème actuel : " +:+ interpolate (property_label p)]>
         (button_attributes b);
     icon_className :=
       match icon_className b with
       | None => None
       | Some _ => Some ("bi " +:+ interpolate (property_icon p) +:+ " me-1")
       end;
     current_theme_textContent :=
       match current_theme_textContent b with
       | None => None
       | Some _ => Some (to_nullable_DOMString (property_label p))
       end |}.

Definition updateOption (current : string) (o : ThemeOption) : ThemeOption :=
  {| dataset_theme := dataset_theme o;
     option_classList :=
       classList_toggle "active"
         (bool_decide (dataset_theme o = Some current)) (option_classList o) |}.

Definition updateThemeUI_document (current : string) (d : Document) : Document :=
  let currentThemeData := themes_get current in
  {| documentElement_attributes := documentElement_attributes d;
     highlight_js_theme_href := highlight_js_theme_href d;
     hero_svg_src := hero_svg_src d;
     themeDropdown :=
       match themeDropdown d with
       | Some b =>
           if property_truthy currentThemeData
           then Some (updateButton currentThemeData b) else Some b
       | None => None
       end;
     theme_options := map (updateOption current) (theme_options d);
     themeDropdown_focused := themeDropdown_focused d |}.

Definition updateThemeUI (s : State) : State :=
  with_document (updateThemeUI_document (currentTheme s)) s.

Definition focusThemeButton (d : Document) : Document :=
  match themeDropdown d with
  | None => d
  | Some _ =>
      {| documentElement_attributes := documentElement_attributes d;
         highlight_js_theme_href := highlight_js_theme_href d;
         hero_svg_src := hero_svg_src d;
         themeDropdown := themeDropdown d;
         theme_options := theme_options d;
         themeDropdown_focused := true |}
  end.

Definition switchTheme (theme : string) (s : State) : State :=
  if negb (property_truthy (themes_get theme)) then s
  else
    let s := with_currentTheme theme s in
    let s := with_document (applyTheme theme) s in
    let s := setItem "preferred-theme" theme s in
    let s := updateThemeUI s in
    with_document focusThemeButton s.

(** [window.matchMedia?.(q).matches]: the optional call short-circuits the
    whole chain to [undefined] (here [None]) when [matchMedia] is missing. *)
Definition matchMedia_matches (w : Window) (q : string) : option bool :=
  match matchMedia w with
  | None => None
  | Some f => Some (f q)
  end.

Definition prefers_dark : string := "(prefers-color-scheme: dark)".

(** [matches ? 'dark' : 'light'], where [undefined] is falsy. *)
Definition systemTheme (w : Window) : string :=
  if default false (matchMedia_matches w prefers_dark) then "dark" else "light".

Definition loadTheme (w : Window) (s : State) : State :=
  let savedTheme := getItem "preferred-theme" s in
  let s :=
    match savedTheme with
    | Some t =>
        if truthy savedTheme && property_truthy (themes_get t)
        then with_currentTheme t s
        else with_currentTheme (systemTheme w) s
    | None => with_currentTheme (systemTheme w) s
    end in
  with_document (applyTheme (currentTheme s)) s.

(** The listener installed by [listenForSystemThemeChanges], applied to a
    change event whose [matches] flag is [e_matches]. *)
Definition onSystemThemeChange (e_matches : bool) (s : State) : State :=
  if negb (truthy (getItem "preferred-theme" s))
  then switchTheme (if e_matches then "dark" else "light") s
  else s.

(** A sequence of change events, delivered in order. *)
Definition notify (s : State) (changes : list bool) : State :=
  fold_left (λ st e_matches, onSystemThemeChange e_matches st) changes s.

(** [new ThemeManager()]: the constructor sets [currentTheme] to ['light']
    and runs [init]; the click handlers it installs are [switchTheme]. *)
Definition init (w : Window) (s : State) : State :=
  updateThemeUI (loadTheme w s).

Definition construct (w : Window) (d : Document) (store : gmap string string)
  : State :=
  init w {| currentTheme := "light"; document := d; localStorage := store |}.

(** The specification's [applyCurrent]: [applyTheme] for the current
    theme followed by [updateThemeUI]. *)
Definition applyCurrent (s : State) : State :=
  updateThemeUI (with_document (applyTheme (currentTheme s)) s).

End ThemeManager.

(* ================================================================== *)
(** ** class DynamicNavbarBreakpoint *)
(* ================================================================== *)

Module DynamicNavbarBreakpoint.

Import JS.

(** DOM elements are opaque handles. *)
Definition element := positive.

(** The navbar as the browser presents it: which descendants a selector
    finds, and what the layout engine reports for an element while the
    navbar carries a given class list (the rendered widths depend on
    whether [navbar-expand-lg] is among the classes). *)
Record Navbar := {
  querySelector : string → option element;
  offsetWidth : list string → element → Z;
  clientWidth : list string → element → Z;
  computedStyle_gap : list string → element → string
}.

(** What the engine does to the outside world, in program order.  A layout
    read records the class list the navbar carried when it took place. *)
Inductive effect :=
| ClassAdded (tok : string)
| ClassRemoved (tok : string)
| LayoutRead (property : string) (e : element) (classes : list string)
| DropdownCreated (e : element).

Record World := {
  navbar_classList : list string;
  console : list string;          (* console.warn messages *)
  observed : list element;        (* targets of the engine's ResizeObserver *)
  timeouts : list Z;              (* delays of pending setTimeout callbacks *)
  effects : list effect
}.

Definition log (ev : effect) (w : World) : World :=
  {| navbar_classList := navbar_classList w;
     console := console w;
     observed := observed w;
     timeouts := timeouts w;
     effects := effects w ++ [ev] |}.

Definition set_classList (cl : list string) (w : World) : World :=
  {| navbar_classList := cl;
     console := console w;
     observed := observed w;
     timeouts := timeouts w;
     effects := effects w |}.

(** The fields the constructor fills from [navbar.querySelector]. *)
Record Engine := {
  container : option element;
  brand : option element;
  navbarNav : option element;
  themeSelector : option element
}.

(** *** Effectful code: a state monad over [World] in which a property
    read on [null] fails (the [TypeError] of the source). *)
Definition M (A : Type) : Type := World → option (A * World).

Definition ret {A} (a : A) : M A := λ w, Some (a, w).
Definition bind {A B} (m : M A) (k : A → M B) : M B :=
  λ w, match m w with
       | Some (a, w') => k a w'
       | None => None
       end.
Definition throw {A} : M A := λ _, None.

Notation "x <- m ;; k" := (bind m (λ x, k))
  (at level 100, m at next level, right associativity).
Notation "m ;;; k" := (bind m (λ _, k))
  (at level 100, right associativity).

Definition navbar_classList_add (tok : string) : M unit :=
  λ w, Some (tt, log (ClassAdded tok)
                   (set_classList (classList_add tok (navbar_classList w)) w)).

Definition navbar_classList_remove (tok : string) : M unit :=
  λ w, Some (tt, log (ClassRemoved tok)
                   (set_classList (classList_remove tok (navbar_classList w)) w)).

(** [el.offsetWidth], [el.clientWidth], [getComputedStyle(el).gap].  The two
    widths are attributes of type [long]. *)
Definition get_offsetWidth (nb : Navbar) (el : option element) : M number :=
  match el with
  | None => throw
  | Some e => λ w,
      Some (of_long (offsetWidth nb (navbar_classList w) e),
            log (LayoutRead "offsetWidth" e (navbar_classList w)) w)
  end.

Definition get_clientWidth (nb : Navbar) (el : option element) : M number :=
  match el with
  | None => throw
  | Some e => λ w,
      Some (of_long (clientWidth nb (navbar_classList w) e),
            log (LayoutRead "clientWidth" e (navbar_classList w)) w)
  end.

Definition getComputedStyle_gap (nb : Navbar) (e : element) : M string :=
  λ w, Some (computedStyle_gap nb (navbar_classList w) e,
             log (LayoutRead "gap" e (navbar_classList w)) w).

Definition new_Dropdown (e : element) : M unit :=
  λ w, Some (tt, log (DropdownCreated e) w).

(** *** Methods *)

Definition construct (nb : Navbar) : Engine :=
  {| container := querySelector nb ".container";
     brand := querySelector nb ".navbar-brand";
     navbarNav := querySelector nb ".navbar-nav";
     themeSelector := querySelector nb "#themeDropdown" |}.

Definition buffer : number := of_Z 5.

(** [parseFloat(gapStyle) || 8] *)
Definition gapWidth_of (gapStyle : string) : number :=
  number_or (parseFloat gapStyle) (of_Z 8).

Definition requiredWidth_of (brandWidth navbarNavWidth themeSelectorWidth gapWidth : number)
  : number :=
  add (add (add brandWidth navbarNavWidth) themeSelectorWidth) (mul (of_Z 2) gapWidth).

Definition checkBreakpoint (nb : Navbar) (this : Engine) : M unit :=
  navbar_classList_add "navbar-expand-lg" ;;;
  brandWidth <- get_offsetWidth nb (brand this) ;;
  navbarNavWidth <- get_offsetWidth nb (navbarNav this) ;;
  themeSelectorWidth <- get_offsetWidth nb (themeSelector this) ;;
  gapStyle <- match querySelector nb ".navbar-collapse" with
              | Some navbarCollapse => getComputedStyle_gap nb navbarCollapse
              | None => ret "0px"
              end ;;
  let gapWidth := gapWidth_of gapStyle in
  let requiredWidth :=
    requiredWidth_of brandWidth navbarNavWidth themeSelectorWidth gapWidth in
  availableWidth <- get_clientWidth nb (container this) ;;
  (if gt (add requiredWidth buffer) availableWidth
   then navbar_classList_remove "navbar-expand-lg"
   else navbar_classList_add "navbar-expand-lg") ;;;
  match themeSelector this with
  | Some e => new_Dropdown e
  | None => ret tt
  end.

Definition warning : string :=
  "DynamicNavbarBreakpoint: Missing required elements for measurement.".

Definition is_null (el : option element) : bool :=
  match el with None => true | Some _ => false end.

Definition console_warn (msg : string) (w : World) : World :=
  {| navbar_classList := navbar_classList w;
     console := console w ++ [msg];
     observed := observed w;
     timeouts := timeouts w;
     effects := effects w |}.

Definition observe (e : element) (w : World) : World :=
  {| navbar_classList := navbar_classList w;
     console := console w;
     observed := observed w ++ [e];
     timeouts := timeouts w;
     effects := effects w |}.

Definition setTimeout (delay : Z) (w : World) : World :=
  {| navbar_classList := navbar_classList w;
     console := console w;
     observed := observed w;
     timeouts := timeouts w ++ [delay];
     effects := effects w |}.

Definition init (this : Engine) (w : World) : World :=
  match container this, brand this, navbarNav this, themeSelector this with
  | Some c, Some _, Some n, Some _ =>
      setTimeout 150 (observe n (observe c w))
  | _, _, _, _ => console_warn warning w
  end.

(** *** The event loop, as far as it reaches the engine

    A resize notification for [target] runs the observer callback when
    [target] is observed; a timer tick runs the oldest pending timeout.
    Both callbacks are [() => this.checkBreakpoint()]. *)
Inductive notification :=
| Resize (target : element)
| TimerTick.

Definition clear_timeout (w : World) : World :=
  {| navbar_classList := navbar_classList w;
     console := console w;
     observed := observed w;
     timeouts := tail (timeouts w);
     effects := effects w |}.

Definition deliver (nb : Navbar) (this : Engine) (n : notification) (w : World)
  : option World :=
  match n with
  | Resize target =>
      if bool_decide (target ∈ observed w)
      then snd <$> checkBreakpoint nb this w
      else Some w
  | TimerTick =>
      match timeouts w with
      | [] => Some w
      | _ :: _ => snd <$> checkBreakpoint nb this (clear_timeout w)
      end
  end.

Fixpoint run (nb : Navbar) (this : Engine) (ns : list notification) (w : World)
  : option World :=
  match ns with
  | [] => Some w
  | n :: ns => w' ← deliver nb this n w; run nb this ns w'
  end.

(** The page right after [DOMContentLoaded], before the engine exists. *)
Definition fresh (classes : list string) : World :=
  {| navbar_classList := classes; console := []; observed := [];
     timeouts := []; effects := [] |}.

Definition expanded (w : World) : bool :=
  classList_contains "navbar-expand-lg" (navbar_classList w).

(** A layout read took place under the class list [cl]. *)
Definition read_under (cl : list string) (ev : effect) : Prop :=
  match ev with
  | LayoutRead _ _ cl' => cl' = cl
  | _ => True
  end.

(** *** The outcome of one check, spelled out

    With every element in place, [checkBreakpoint] started in world [w]
    ends in [after_check]; the definitions below name its ingredients. *)
Section Outcome.

Variable nb : Navbar.
Variables c b n t : element.
Variable w : World.

(** The class list once the expand class is forced. *)
Definition baseline : list string :=
  classList_add "navbar-expand-lg" (navbar_classList w).

Definition gap_reads : list effect :=
  match querySelector nb ".navbar-collapse" with
  | Some e => [LayoutRead "gap" e baseline]
  | None => []
  end.

Definition measured_gapStyle : string :=
  match querySelector nb ".navbar-collapse" with
  | Some e => computedStyle_gap nb baseline e
  | None => "0px"
  end.

Definition measured_requiredWidth : number :=
  requiredWidth_of (of_long (offsetWidth nb baseline b))
    (of_long (offsetWidth nb baseline n)) (of_long (offsetWidth nb baseline t))
    (gapWidth_of measured_gapStyle).

Definition collapses : bool :=
  gt (add measured_requiredWidth buffer) (of_long (clientWidth nb baseline c)).

Definition after_check : World :=
  {| navbar_classList :=
       if collapses then classList_remove "navbar-expand-lg" baseline
       else classList_add "navbar-expand-lg" baseline;
     console := console w;
     observed := observed w;
     timeouts := timeouts w;
     effects :=
       effects w ++
       [ ClassAdded "navbar-expand-lg";
         LayoutRead "offsetWidth" b baseline;
         LayoutRead "offsetWidth" n baseline;
         LayoutRead "offsetWidth" t baseline ] ++
       gap_reads ++
       [ LayoutRead "clientWidth" c baseline;
         if collapses then ClassRemoved "navbar-expand-lg"
         else ClassAdded "navbar-expand-lg";
         DropdownCreated t ] |}.

End Outcome.

End DynamicNavbarBreakpoint.

(* ================================================================== *)
(** ** Example pages *)
(* ================================================================== *)

Module Examples.

Import JS ThemeManager.

(** A page with every node the theme manager looks for; the dark option is
    marked active, as the markup ships it. *)
Definition page : Document :=
  {| documentElement_attributes := ∅;
     highlight_js_theme_href := Some lightTheme;
     hero_svg_src := Some "/img/undraw_road_to_knowledge_light.svg";
     themeDropdown :=
       Some {| button_attributes := ∅;
               icon_className := Some "bi bi-sun me-1";
               current_theme_textContent := Some "Light" |};
     theme_options :=
       [ {| dataset_theme := Some "light"; option_classList := ["theme-option"] |};
         {| dataset_theme := Some "dark";
            option_classList := ["theme-option"; "active"] |};
         {| dataset_theme := Some "high-contrast";
            option_classList := ["theme-option"] |} ];
     themeDropdown_focused := false |}.

Definition dark_system : Window :=
  {| matchMedia := Some (λ q, String.eqb q prefers_dark) |}.

Definition no_matchMedia : Window := {| matchMedia := None |}.

(** A first visit: nothing persisted. *)
Definition first_visit : State :=
  {| currentTheme := "light"; document := page; localStorage := ∅ |}.

(** A store whose preference key holds a variant that no longer exists. *)
Definition stale_preference : State :=
  {| currentTheme := "light"; document := page;
     localStorage := {[ "preferred-theme" := "solarized" ]} |}.

End Examples.

Module NavbarExamples.

Import JS DynamicNavbarBreakpoint.

Definition container_el : element := 1%positive.
Definition brand_el : element := 2%positive.
Definition nav_el : element := 3%positive.
Definition theme_el : element := 4%positive.
Definition collapse_el : element := 5%positive.

Definition full_markup (selector : string) : option element :=
  if String.eqb selector ".container" then Some container_el
  else if String.eqb selector ".navbar-brand" then Some brand_el
  else if String.eqb selector ".navbar-nav" then Some nav_el
  else if String.eqb selector "#themeDropdown" then Some theme_el
  else if String.eqb selector ".navbar-collapse" then Some collapse_el
  else None.

(** Brand 100px, links 300px (hidden, hence 0px, while the navbar is
    collapsed), theme control 150px; the container width and the computed
    gap are the parameters. *)
Definition measured (containerWidth : Z) (gap : string) : Navbar :=
  {| querySelector := full_markup;
     offsetWidth := λ classes e,
       if Pos.eqb e brand_el then 100%Z
       else if Pos.eqb e nav_el
            then (if classList_contains "navbar-expand-lg" classes then 300 else 0)%Z
            else if Pos.eqb e theme_el then 150%Z else 0%Z;
     clientWidth := λ _ _, containerWidth;
     computedStyle_gap := λ _ _, gap |}.

(** The same navbar without its theme control. *)
Definition no_theme_control : Navbar :=
  {| querySelector := λ selector,
       if String.eqb selector "#themeDropdown" then None else full_markup selector;
     offsetWidth := offsetWidth (measured 560 "8px");
     clientWidth := clientWidth (measured 560 "8px");
     computedStyle_gap := computedStyle_gap (measured 560 "8px") |}.

(** The expanded state after one [checkBreakpoint] from [classes]. *)
Definition check_from (nb : Navbar) (classes : list string) : option bool :=
  match checkBreakpoint nb (construct nb) (fresh classes) with
  | Some (_, w) => Some (expanded w)
  | None => None
  end.

End NavbarExamples.

(* ================================================================== *)
(** ** The theme manager under events *)
(* ================================================================== *)

Module ThemeEvents.

Import JS ThemeManager.

(** What reaches the manager once [init] has run: a click on the [i]-th
    [.theme-option] of the page, or a change of the system colour scheme. *)
Inductive event :=
| OptionClick (i : nat)
| SystemChange (e_matches : bool).

(** The click listener of [setupEventListeners]:
    [this.switchTheme(e.currentTarget.dataset.theme)].  A missing
    [data-theme] gives [undefined], which the property read in the guard of
    [switchTheme] turns into the key ["undefined"]. *)
Definition onOptionClick (o : ThemeOption) (s : State) : State :=
  switchTheme (interpolate (dataset_theme o)) s.

(** Listeners are attached to the options found at [init]; the system
    listener exists only when [window.matchMedia] does. *)
Definition handle (w : Window) (ev : event) (s : State) : State :=
  match ev with
  | OptionClick i =>
      match theme_options (document s) !! i with
      | Some o => onOptionClick o s
      | None => s
      end
  | SystemChange e_matches =>
      match matchMedia w with
      | Some _ => onSystemThemeChange e_matches s
      | None => s
      end
  end.

Definition run (w : Window) (evs : list event) (s : State) : State :=
  fold_left (λ st ev, handle w ev st) evs s.

(** The page shows [theme]: root attribute, code stylesheet and hero
    illustration, each as far as its node exists. *)
Definition shows (theme : string) (d : Document) : Prop :=
  documentElement_attributes d !! "data-bs-theme" = Some theme
  ∧ (∀ href, highlight_js_theme_href d = Some href →
       href = if String.eqb theme "dark" || String.eqb theme "high-contrast"
              then darkTheme else lightTheme)
  ∧ (∀ src, hero_svg_src d = Some src → src = svgPath theme).

(** The switcher marks [theme]: an option carries the class [active] exactly
    when its [data-theme] is [theme]. *)
Definition marks (theme : string) (d : Document) : Prop :=
  Forall (λ o, classList_contains "active" (option_classList o)
               = bool_decide (dataset_theme o = Some theme))
         (theme_options d).

(** The button announces the entry [p] of [themes]. *)
Definition announces (p : property) (d : Document) : Prop :=
  ∀ b, themeDropdown d = Some b →
    button_attributes b !! "aria-label"
      = Some ("Thème actuel : " +:+ interpolate (property_label p))
    ∧ (∀ cls, icon_className b = Some cls →
         cls = "bi " +:+ interpolate (property_icon p) +:+ " me-1")
    ∧ (∀ txt, current_theme_textContent b = Some txt →
         txt = to_nullable_DOMString (property_label p)).

(** No [data-theme] of the page names a member of [Object.prototype]. *)
Definition plain_options (d : Document) : Prop :=
  Forall (λ o, ∀ t, dataset_theme o = Some t → t ∉ Object_prototype)
         (theme_options d).

End ThemeEvents.

(* ================================================================== *)
(** ** The breakpoint engine over many notifications *)
(* ================================================================== *)

Module BreakpointLayout.

Import JS DynamicNavbarBreakpoint.

(** An engine whose constructor found all four elements. *)
Definition complete (c b n t : element) : Engine :=
  {| container := Some c; brand := Some b; navbarNav := Some n;
     themeSelector := Some t |}.

(** Two class lists with the same members. *)
Definition same_classes (cl1 cl2 : list string) : Prop :=
  ∀ tok, tok ∈ cl1 ↔ tok ∈ cl2.

(** The layout depends on which classes the navbar carries, not on their
    order in the attribute: what CSS selectors can tell apart. *)
Definition layout_by_classes (nb : Navbar) : Prop :=
  ∀ cl1 cl2 e, same_classes cl1 cl2 →
    offsetWidth nb cl1 e = offsetWidth nb cl2 e
    ∧ clientWidth nb cl1 e = clientWidth nb cl2 e
    ∧ computedStyle_gap nb cl1 e = computedStyle_gap nb cl2 e.

(** The same navbar in a window of another size. *)
Definition with_clientWidth (f : list string → element → Z) (nb : Navbar) : Navbar :=
  {| querySelector := querySelector nb;
     offsetWidth := offsetWidth nb;
     clientWidth := f;
     computedStyle_gap := computedStyle_gap nb |}.

(** A computed length in whole pixels, as the browser serialises it:
    decimal digits followed by [px]. *)
Definition digit_char (d : Z) : Ascii.ascii :=
  Ascii.ascii_of_N (48 + Z.to_N d).

Fixpoint digits_string (ds : list Z) : string :=
  match ds with
  | [] => EmptyString
  | d :: ds => String (digit_char d) (digits_string ds)
  end.

Definition px (ds : list Z) : string := digits_string ds +:+ "px".

End BreakpointLayout.

(* ================================================================== *)
(** ** class ScrollToTopButton *)
(* ================================================================== *)

Module ScrollToTopButton.

Import JS.

(** What the browser reports when a scroll event is handled.  Offsets are
    in CSS pixels.  [scrollY] is only compared with 300, so the rational it
    stands for is kept; [innerHeight] is a [long]; [footerRect_top] is
    [getBoundingClientRect().top] of the footer, a number that enters the
    arithmetic of [handleScroll], [None] on a page without a [<footer>]. *)
Record Viewport := {
  scrollY : Q;
  innerHeight : Z;
  footerRect_top : option number
}.

(** The button: its class list and the pixels of its inline [bottom]
    ([None] while no inline value is set). *)
Record Button := {
  classList : list string;
  style_bottom : option number
}.

Definition Qlt_bool (x y : Q) : bool := negb (Qle_bool y x).

Definition handleScroll (v : Viewport) (button : Button) : Button :=
  let classes := classList_toggle "show" (Qlt_bool 300 (scrollY v)) (classList button) in
  match footerRect_top v with
  | Some top =>
      if lt top (of_long (innerHeight v))
      then {| classList := classes;
              style_bottom :=
                Some (add (sub (of_long (innerHeight v)) top) (of_Z 20)) |}
      else {| classList := classes; style_bottom := Some (of_Z 20) |}
  | None => {| classList := classes; style_bottom := style_bottom button |}
  end.

End ScrollToTopButton.

(* ================================================================== *)
(** ** classes MobileMenuManager and SmoothScrollWithOffset *)
(* ================================================================== *)

Module Navigation.

Import JS.

(** The first [.navbar] of the page: the class list of its
    [.navbar-collapse], [None] when it has none.  Bootstrap puts the class
    [show] on the collapse while the mobile menu is open. *)
Record Navbar := {
  navbar_collapse : option (list string)
}.

(** The page when a click is handled: its navbar, if any, and the ids of its
    elements. *)
Record Page := {
  navbar : option Navbar;
  ids : list string
}.

(** The element a click landed on, as far as [matches] looks at it. *)
Record Target := {
  target_classList : list string;
  data_bs_toggle : nullable
}.

(** What the handlers ask of the browser and of Bootstrap. *)
Inductive action :=
| PreventDefault
| ScrollToTop
| ScrollIntoView (id : string)
| Hide.

(** The actions so far, and the targets of the [once] listeners waiting for
    [hidden.bs.collapse]. *)
Record State := {
  log : list action;
  waiting : list string
}.

Inductive result :=
| Done (s : State)
| TypeError (s : State).

Definition emit (a : action) (s : State) : State :=
  {| log := log s ++ [a]; waiting := waiting s |}.

Definition await_hidden (id : string) (s : State) : State :=
  {| log := log s; waiting := waiting s ++ [id] |}.

(** [document.getElementById(id)] finds something; the empty id never does. *)
Definition getElementById (p : Page) (id : string) : bool :=
  negb (String.eqb id EmptyString) && bool_decide (id ∈ ids p).

(** [href.substring(1)] *)
Definition substring_1 (href : string) : string :=
  match href with
  | String _ rest => rest
  | EmptyString => EmptyString
  end.

(** [SmoothScrollWithOffset.handleAnchorClick], for the [href] attribute of
    the anchor the listener sits on. *)
Definition handleAnchorClick (p : Page) (href : string) (s : State) : result :=
  if String.eqb href "#" || String.eqb href "#home" then
    Done (emit ScrollToTop (emit PreventDefault s))
  else
    let targetId := substring_1 href in
    if getElementById p targetId then
      let s := emit PreventDefault s in
      match navbar p with
      | None => TypeError s
      | Some nb =>
          let isMobileMenuOpen :=
            match navbar_collapse nb with
            | Some classes => classList_contains "show" classes
            | None => false
            end in
          if isMobileMenuOpen
          then Done (await_hidden targetId s)
          else Done (emit (ScrollIntoView targetId) s)
      end
    else Done s.

(** [hidden.bs.collapse] on the collapse: every waiting listener scrolls to
    its target and, being [once], is gone afterwards. *)
Definition onHidden (s : State) : State :=
  {| log := log s ++ map ScrollIntoView (waiting s); waiting := [] |}.

(** The delegated click listener of [MobileMenuManager.init]; it exists only
    when the navbar has a [.navbar-collapse]. *)
Definition onCollapseClick (nb : Navbar) (target : Target) (s : State) : State :=
  match navbar_collapse nb with
  | None => s
  | Some classes =>
      let isSimpleNavLink :=
        classList_contains "nav-link" (target_classList target)
        && negb (bool_decide (data_bs_toggle target = Some "dropdown")) in
      let isDropdownItem :=
        classList_contains "dropdown-item" (target_classList target) in
      if isSimpleNavLink || isDropdownItem
      then (if classList_contains "show" classes then emit Hide s else s)
      else s
  end.

(** A click on an anchor inside the collapse: the anchor's own listener runs
    first, the delegated one as the event bubbles up. *)
Definition clickInMenu (p : Page) (nb : Navbar) (href : string) (target : Target)
    (s : State) : result :=
  match handleAnchorClick p href s with
  | Done s' => Done (onCollapseClick nb target s')
  | TypeError s' => TypeError (onCollapseClick nb target s')
  end.

Definition state_of (r : result) : State :=
  match r with
  | Done s => s
  | TypeError s => s
  end.

Definition is_scroll (a : action) : bool :=
  match a with
  | ScrollToTop | ScrollIntoView _ => true
  | _ => false
  end.

End Navigation.

(* ================================================================== *)
(** ** class CodeBlockManager *)
(* ================================================================== *)

Module CodeBlockManager.

Import JS.

(** The double quote, for markup written in single-quoted literals. *)
Definition dq : string := String (Ascii.ascii_of_N 34) EmptyString.

Definition clipboard_markup : string :=
  "<i class=" +:+ dq +:+ "bi bi-clipboard" +:+ dq +:+ "></i> Copier".

Definition check_markup : string :=
  "<i class=" +:+ dq +:+ "bi bi-check-lg" +:+ dq +:+ "></i> Copié !".

Record CopyButton := {
  classList : list string;
  innerHTML : string;
  attributes : gmap string string
}.

Definition createCopyButton : CopyButton :=
  {| classList := ["copy-code-btn"];
     innerHTML := clipboard_markup;
     attributes := {[ "aria-label" := "Copier le code" ]} |}.

(** A button, the number of pending 2000ms timers set by successful copies,
    and what [console.error] received. *)
Record State := {
  button : CopyButton;
  timers : nat;
  errors : list string
}.

(** The callbacks that touch the button after a click on it: the promise of
    [navigator.clipboard.writeText] is fulfilled or rejected, or a revert
    timer fires. *)
Inductive event :=
| Copied
| CopyFailed
| Timer.

Definition step (ev : event) (s : State) : State :=
  match ev with
  | Copied =>
      {| button :=
           {| classList := classList_add "copied" (classList (button s));
              innerHTML := check_markup;
              attributes := attributes (button s) |};
         timers := S (timers s);
         errors := errors s |}
  | CopyFailed =>
      {| button :=
           {| classList := classList (button s);
              innerHTML := "Erreur";
              attributes := attributes (button s) |};
         timers := timers s;
         errors := errors s ++ ["Failed to copy code: "] |}
  | Timer =>
      match timers s with
      | O => s
      | S k =>
          {| button :=
               {| classList := classList_remove "copied" (classList (button s));
                  innerHTML := clipboard_markup;
                  attributes := attributes (button s) |};
             timers := k;
             errors := errors s |}
      end
  end.

Definition run (evs : list event) (s : State) : State :=
  fold_left (λ st ev, step ev st) evs s.

(** Right after [init] has appended the button. *)
Definition created : State :=
  {| button := createCopyButton; timers := 0; errors := [] |}.

End CodeBlockManager.

(* ================================================================== *)
(** ** classes SupabaseManager and ContactFormHandler *)
(* ================================================================== *)

Module ContactForm.

Import JS.

(** [console.log], [console.warn], [console.error] *)
Inductive level :=
| Log
| Warn
| Error.

(** *** SupabaseManager *)

(** The globals [init] looks at: which are defined, and whether
    [supabase.createClient] throws. *)
Record Globals := {
  MockSupabaseManager : bool;
  supabase_library : bool;
  SUPABASE_URL : bool;
  SUPABASE_KEY : bool;
  createClient_throws : bool
}.

Inductive client :=
| MockClient
| SupabaseClient.

(** [init]: the value of [this.supabase] ([None] for [null]) and what went
    to the console. *)
Definition init (g : Globals) : option client * list (level * string) :=
  if MockSupabaseManager g then
    (Some MockClient, [(Log, "Using MockSupabaseManager for testing.")])
  else if negb (supabase_library g) then
    (None, [(Error, "Supabase client library (supabase-js) is not loaded.")])
  else if negb (SUPABASE_URL g) || negb (SUPABASE_KEY g) then
    (None, [(Error, "Supabase URL or Key is not defined. Make sure they are injected correctly in the HTML.")])
  else if createClient_throws g then
    (None, [(Error, "Failed to initialize Supabase client:")])
  else
    (Some SupabaseClient, [(Log, "Supabase client initialized successfully.")]).

(** The parameters of the remote procedure [handle_contact_form]. *)
Record Args := {
  p_name : nullable;
  p_email : nullable;
  p_subject : nullable;
  p_message : nullable
}.

Record RpcError := {
  message : nullable
}.

(** How the promise of [this.supabase.rpc(...)] settles: with an object
    [{ data, error }], or rejected. *)
Inductive rpc_response :=
| Resolved (data : nullable) (error : option RpcError)
| Rejected.

(** How the promise of [submitContactForm] settles: with [{ error }], with
    [{ data }], or rejected. *)
Inductive settled :=
| WithError (error : RpcError)
| WithData (data : nullable)
| RejectedPromise.

(** *** The page *)

Record SubmitButton := {
  disabled : bool;
  innerHTML : string
}.

(** The form: its classes, the current value of each named control, the
    values they are reset to, the verdict of [checkValidity] on given values,
    and its [button[type="submit"]], if it has one. *)
Record Form := {
  classList : list string;
  values : gmap string string;
  defaults : gmap string string;
  checkValidity : gmap string string → bool;
  submitButton : option SubmitButton
}.

Record World := {
  form : Form;
  alerts : list string;
  console : list (level * string);
  rpc_calls : list Args
}.

Definition with_form (f : Form → Form) (w : World) : World :=
  {| form := f (form w); alerts := alerts w; console := console w;
     rpc_calls := rpc_calls w |}.

Definition alert (msg : string) (w : World) : World :=
  {| form := form w; alerts := alerts w ++ [msg]; console := console w;
     rpc_calls := rpc_calls w |}.

Definition console_write (l : level) (msg : string) (w : World) : World :=
  {| form := form w; alerts := alerts w; console := console w ++ [(l, msg)];
     rpc_calls := rpc_calls w |}.

Definition call_rpc (a : Args) (w : World) : World :=
  {| form := form w; alerts := alerts w; console := console w;
     rpc_calls := rpc_calls w ++ [a] |}.

Definition set_classList (cl : list string) (f : Form) : Form :=
  {| classList := cl; values := values f; defaults := defaults f;
     checkValidity := checkValidity f; submitButton := submitButton f |}.

Definition set_submitButton (b : SubmitButton) (f : Form) : Form :=
  {| classList := classList f; values := values f; defaults := defaults f;
     checkValidity := checkValidity f; submitButton := Some b |}.

(** [form.reset()] *)
Definition reset (f : Form) : Form :=
  {| classList := classList f; values := defaults f; defaults := defaults f;
     checkValidity := checkValidity f; submitButton := submitButton f |}.

(** [SupabaseManager.submitContactForm]; [rpc] is the remote end. *)
Definition submitContactForm (supabase : option client) (rpc : Args → rpc_response)
    (a : Args) (w : World) : settled * World :=
  match supabase with
  | None =>
      (WithError {| message := Some "Supabase client not available." |},
       console_write Error "Supabase client is not initialized." w)
  | Some _ =>
      let w := call_rpc a w in
      match rpc a with
      | Resolved data (Some error) =>
          (WithError error,
           console_write Error "Error calling handle_contact_form RPC:" w)
      | Resolved data None =>
          (WithData data,
           console_write Log "RPC handle_contact_form called successfully:" w)
      | Rejected => (RejectedPromise, w)
      end
  end.

Definition quote : string := String (Ascii.ascii_of_N 34) EmptyString.

Definition spinner : string :=
  "<span class=" +:+ quote +:+ "spinner-border spinner-border-sm" +:+ quote
  +:+ " role=" +:+ quote +:+ "status" +:+ quote
  +:+ " aria-hidden=" +:+ quote +:+ "true" +:+ quote
  +:+ "></span> Envoi en cours...".

(** How a run of the [submit] listener ends: it returns, or its promise is
    rejected by a [TypeError] nobody handles. *)
Inductive result :=
| Completed (w : World)
| Unhandled (w : World).

Definition world_of (r : result) : World :=
  match r with
  | Completed w => w
  | Unhandled w => w
  end.

(** The [submit] listener of [ContactFormHandler.init], run to its end. *)
Definition onSubmit (supabase : option client) (rpc : Args → rpc_response)
    (w : World) : result :=
  let w := with_form (λ f, set_classList (classList_add "was-validated" (classList f)) f) w in
  if negb (checkValidity (form w) (values (form w))) then
    Completed (console_write Log "Form is invalid. Submission stopped." w)
  else
    let w := console_write Log "Contact form is valid, proceeding with submission." w in
    let a := {| p_name := values (form w) !! "name";
                p_email := values (form w) !! "email";
                p_subject := values (form w) !! "subject";
                p_message := values (form w) !! "message" |} in
    match submitButton (form w) with
    | None => Unhandled w
    | Some b =>
        let originalButtonHtml := innerHTML b in
        let w := with_form (set_submitButton {| disabled := true; innerHTML := spinner |}) w in
        let '(outcome, w) := submitContactForm supabase rpc a w in
        let w :=
          match outcome with
          | WithError error =>
              alert ("Une erreur est survenue: " +:+ interpolate (message error)) w
          | WithData _ =>
              let w := alert "Message envoyé avec succès !" w in
              let w := with_form reset w in
              with_form (λ f, set_classList
                                (classList_remove "was-validated" (classList f)) f) w
          | RejectedPromise =>
              alert "Une erreur inattendue est survenue."
                (console_write Error "Submission failed" w)
          end in
        Completed
          (with_form (set_submitButton
                        {| disabled := false; innerHTML := originalButtonHtml |}) w)
    end.

(** The submission went through: a client exists and the remote end
    answered without an error. *)
Definition succeeds (supabase : option client) (rpc : Args → rpc_response)
    (a : Args) : bool :=
  match supabase, rpc a with
  | Some _, Resolved _ None => true
  | _, _ => false
  end.

Definition args_of (f : Form) : Args :=
  {| p_name := values f !! "name";
     p_email := values f !! "email";
     p_subject := values f !! "subject";
     p_message := values f !! "message" |}.

(** The world while the listener awaits [submitContactForm]: the form is
    marked, the button disabled and turned into the spinner. *)
Definition in_flight (w : World) : World :=
  with_form (set_submitButton {| disabled := true; innerHTML := spinner |})
    (console_write Log "Contact form is valid, proceeding with submission."
       (with_form (λ f, set_classList
                          (classList_add "was-validated" (classList f)) f) w)).

(** What the listener does once [submitContactForm] has settled: the
    branches of [try], [catch] and [finally]. *)
Definition settle (originalButtonHtml : string) (outcome : settled) (w : World)
    : World :=
  with_form (set_submitButton
               {| disabled := false; innerHTML := originalButtonHtml |})
    match outcome with
    | WithError error =>
        alert ("Une erreur est survenue: " +:+ interpolate (message error)) w
    | WithData _ =>
        with_form (λ f, set_classList
                          (classList_remove "was-validated" (classList f)) f)
          (with_form reset (alert "Message envoyé avec succès !" w))
    | RejectedPromise =>
        alert "Une erreur inattendue est survenue."
          (console_write Error "Submission failed" w)
    end.

End ContactForm.

(* ================================================================== *)
(** ** The contact page script: validation and simulated submission *)
(* ================================================================== *)

Module ContactValidation.

Import JS.

(** Values of form controls are JavaScript strings: sequences of UTF-16
    code units, so that [length] counts what [String.prototype.length]
    counts. *)
Definition ustring := list N.

(** [WhiteSpace] and [LineTerminator], the code units [trim] removes. *)
Definition is_space (c : N) : bool :=
  bool_decide (c ∈ [9; 10; 11; 12; 13; 32; 160; 5760; 8232; 8233; 8239; 8287;
                    12288; 65279]%N)
  || ((8192 <=? c) && (c <=? 8202))%N.

Fixpoint trimStart (s : ustring) : ustring :=
  match s with
  | c :: r => if is_space c then trimStart r else s
  | [] => []
  end.

Definition trim (s : ustring) : ustring :=
  reverse (trimStart (reverse (trimStart s))).

(** [\d] *)
Definition is_digit (c : N) : bool := ((48 <=? c) && (c <=? 57))%N.

(** [/^\d{10,15}$/.test(s)] *)
Definition phonePattern_test (s : ustring) : bool :=
  forallb is_digit s && (10 <=? List.length s)%nat && (List.length s <=? 15)%nat.

(** A control: its value, the value [reset] gives back, its custom validity
    message (empty: none) and the verdict of its built-in constraints
    ([required], [type=email], ...) on a value. *)
Record Field := {
  value : ustring;
  defaultValue : ustring;
  customValidity : string;
  builtin : ustring → bool
}.

Definition setCustomValidity (msg : string) (f : Field) : Field :=
  {| value := value f; defaultValue := defaultValue f; customValidity := msg;
     builtin := builtin f |}.

Definition reset_field (f : Field) : Field :=
  {| value := defaultValue f; defaultValue := defaultValue f;
     customValidity := customValidity f; builtin := builtin f |}.

Definition field_valid (f : Field) : bool :=
  builtin f (value f) && String.eqb (customValidity f) EmptyString.

Record SubmitButton := {
  disabled : bool;
  innerHTML : string
}.

(** The contact page.  [phoneInput] is looked up by id in the document, the
    other controls inside the form; [phone_in_form] tells whether the phone
    control belongs to the form as well. *)
Record Page := {
  nameInput : Field;
  emailInput : Field;
  phoneInput : Field;
  subjectInput : Field;
  messageInput : Field;
  phone_in_form : bool;
  classList : list string;
  submitButton : SubmitButton;
  successMessage_display : string;
  errorMessage_display : string;
  timers : nat
}.

Definition quote : string := String (Ascii.ascii_of_N 34) EmptyString.
Definition newline : string := String (Ascii.ascii_of_N 10) EmptyString.

Definition sending_markup : string :=
  newline +:+ "            <span class=" +:+ quote
  +:+ "spinner-border spinner-border-sm" +:+ quote
  +:+ " role=" +:+ quote +:+ "status" +:+ quote
  +:+ " aria-hidden=" +:+ quote +:+ "true" +:+ quote +:+ "></span>"
  +:+ newline +:+ "            Envoi en cours..."
  +:+ newline +:+ "        ".

Definition send_markup : string :=
  newline +:+ "                    <i class=" +:+ quote +:+ "bi bi-send me-2"
  +:+ quote +:+ "></i>"
  +:+ newline +:+ "                    Envoyer le Message"
  +:+ newline +:+ "                ".

(** The validation block: every custom message is cleared, then set again
    where the trimmed value fails its rule. *)
Definition validate_name (f : Field) : Field :=
  let f := setCustomValidity EmptyString f in
  if (List.length (trim (value f)) <? 1)%nat
  then setCustomValidity "Veuillez saisir au moins 1 caractère pour le nom." f
  else f.

Definition validate_phone (f : Field) : Field :=
  let f := setCustomValidity EmptyString f in
  if bool_decide (trim (value f) = [])
  then setCustomValidity "Veuillez entrer votre numéro de téléphone." f
  else if negb (phonePattern_test (trim (value f)))
  then setCustomValidity
         "Veuillez saisir un numéro de téléphone valide (10 à 15 chiffres)." f
  else f.

Definition validate_subject (f : Field) : Field :=
  let f := setCustomValidity EmptyString f in
  if (List.length (trim (value f)) <? 5)%nat
  then setCustomValidity "Veuillez saisir au moins 5 caractères pour le sujet." f
  else f.

Definition validate_message (f : Field) : Field :=
  let f := setCustomValidity EmptyString f in
  if (List.length (trim (value f)) <? 10)%nat
  then setCustomValidity
         "Veuillez saisir au moins 10 caractères pour votre message." f
  else f.

Definition validate (p : Page) : Page :=
  {| nameInput := validate_name (nameInput p);
     emailInput := setCustomValidity EmptyString (emailInput p);
     phoneInput := validate_phone (phoneInput p);
     subjectInput := validate_subject (subjectInput p);
     messageInput := validate_message (messageInput p);
     phone_in_form := phone_in_form p;
     classList := classList_add "was-validated" (classList p);
     submitButton := submitButton p;
     successMessage_display := successMessage_display p;
     errorMessage_display := errorMessage_display p;
     timers := timers p |}.

(** [form.checkValidity()]: every control of the form is valid. *)
Definition checkValidity (p : Page) : bool :=
  field_valid (nameInput p) && field_valid (emailInput p)
  && (negb (phone_in_form p) || field_valid (phoneInput p))
  && field_valid (subjectInput p) && field_valid (messageInput p).

(** The submission logic after a passed validation, up to the start of the
    simulated call (a 1500ms timer). *)
Definition start_submission (p : Page) : Page :=
  {| nameInput := nameInput p;
     emailInput := emailInput p;
     phoneInput := phoneInput p;
     subjectInput := subjectInput p;
     messageInput := messageInput p;
     phone_in_form := phone_in_form p;
     classList := classList p;
     submitButton := {| disabled := true; innerHTML := sending_markup |};
     successMessage_display := "none";
     errorMessage_display := "none";
     timers := S (timers p) |}.

(** The [submit] listener. *)
Definition onSubmit (p : Page) : Page :=
  let p := validate p in
  if negb (checkValidity p) then p else start_submission p.

(** The timer of the simulated call fires: the promise is resolved
    ([if (true)]), so [then] and [finally] run, never [catch]. *)
Definition onTimer (p : Page) : Page :=
  match timers p with
  | O => p
  | S k =>
      {| nameInput := reset_field (nameInput p);
         emailInput := reset_field (emailInput p);
         phoneInput := if phone_in_form p then reset_field (phoneInput p)
                       else phoneInput p;
         subjectInput := reset_field (subjectInput p);
         messageInput := reset_field (messageInput p);
         phone_in_form := phone_in_form p;
         classList := classList_remove "was-validated" (classList p);
         submitButton := {| disabled := false; innerHTML := send_markup |};
         successMessage_display := "block";
         errorMessage_display := errorMessage_display p;
         timers := k |}
  end.

(** What happens on the page: the user edits a control, submits, or a timer
    of a simulated call fires. *)
Inductive control := Name | Email | Phone | Subject | Message.

Inductive event :=
| Input (c : control) (v : ustring)
| Submit
| TimerFired.

Definition set_value (v : ustring) (f : Field) : Field :=
  {| value := v; defaultValue := defaultValue f;
     customValidity := customValidity f; builtin := builtin f |}.

Definition onInput (c : control) (v : ustring) (p : Page) : Page :=
  {| nameInput := match c with Name => set_value v (nameInput p) | _ => nameInput p end;
     emailInput := match c with Email => set_value v (emailInput p) | _ => emailInput p end;
     phoneInput := match c with Phone => set_value v (phoneInput p) | _ => phoneInput p end;
     subjectInput :=
       match c with Subject => set_value v (subjectInput p) | _ => subjectInput p end;
     messageInput :=
       match c with Message => set_value v (messageInput p) | _ => messageInput p end;
     phone_in_form := phone_in_form p;
     classList := classList p;
     submitButton := submitButton p;
     successMessage_display := successMessage_display p;
     errorMessage_display := errorMessage_display p;
     timers := timers p |}.

Definition step (ev : event) (p : Page) : Page :=
  match ev with
  | Input c v => onInput c v p
  | Submit => onSubmit p
  | TimerFired => onTimer p
  end.

Definition run (evs : list event) (p : Page) : Page :=
  fold_left (λ st ev, step ev st) evs p.

(** The rules of the validation block, on the values alone. *)
Definition rules_pass (p : Page) : bool :=
  (1 <=? List.length (trim (value (nameInput p))))%nat
  && (negb (phone_in_form p) || phonePattern_test (trim (value (phoneInput p))))
  && (5 <=? List.length (trim (value (subjectInput p))))%nat
  && (10 <=? List.length (trim (value (messageInput p))))%nat.

Definition builtins_pass (p : Page) : bool :=
  builtin (nameInput p) (value (nameInput p))
  && builtin (emailInput p) (value (emailInput p))
  && (negb (phone_in_form p) || builtin (phoneInput p) (value (phoneInput p)))
  && builtin (subjectInput p) (value (subjectInput p))
  && builtin (messageInput p) (value (messageInput p)).

End ContactValidation.

(* ================================================================== *)
(** ** Properties of numbers *)
(* ================================================================== *)

Module NumberProps.

Import JS.

Local Open Scope Z_scope.

(** *** Mantissas and their number of bits *)

Lemma iter_pos_iter {A} (f : A → A) (n : positive) (x : A) :
  SpecFloat.iter_pos f n x = Pos.iter f x n.
Proof.
  revert x. induction n as [n IH | n IH |]; intros x; cbn.
  - rewrite !IH. rewrite !Pos.iter_swap. reflexivity.
  - rewrite !IH. reflexivity.
  - reflexivity.
Qed.

Lemma digits_iter_xO (p k : positive) :
  digits2_pos (Pos.iter xO p k) = (digits2_pos p + k)%positive.
Proof.
  induction k as [|k IH] using Pos.peano_ind.
  - cbn. lia.
  - rewrite Pos.iter_succ. cbn. rewrite IH. lia.
Qed.

Lemma iter_xO_spec (p k : positive) :
  Zpos (Pos.iter xO p k) = Zpos p * 2 ^ Zpos k.
Proof.
  induction k as [|k IH] using Pos.peano_ind.
  - cbn. lia.
  - rewrite Pos.iter_succ, Pos2Z.inj_succ, Z.pow_succ_r by lia.
    change (Zpos (Pos.iter xO p k)~0) with (2 * Zpos (Pos.iter xO p k)).
    rewrite IH. ring.
Qed.

Lemma shl_spec (p : positive) (k : Z) :
  0 ≤ k → Zpos (shl p k) = Zpos p * 2 ^ k.
Proof.
  intros Hk. destruct k as [|j|j]; [cbn; lia| |lia].
  apply iter_xO_spec.
Qed.

Lemma shl_digits (p : positive) (k : Z) :
  0 ≤ k → Zpos (digits2_pos (shl p k)) = Zpos (digits2_pos p) + k.
Proof.
  intros Hk. destruct k as [|j|j]; [cbn; lia| |lia].
  cbn [shl]. rewrite digits_iter_xO. lia.
Qed.

Lemma shl_shl (p : positive) (j k : Z) :
  0 ≤ j → 0 ≤ k → shl (shl p j) k = shl p (j + k).
Proof.
  intros Hj Hk. apply Pos2Z.inj. rewrite !shl_spec by lia.
  rewrite Z.pow_add_r by lia. ring.
Qed.

Lemma digits_bounds (p : positive) :
  2 ^ (Zpos (digits2_pos p) - 1) ≤ Zpos p < 2 ^ Zpos (digits2_pos p).
Proof.
  induction p as [p IH | p IH |]; cbn [digits2_pos].
  - rewrite Pos2Z.inj_succ. change (Zpos p~1) with (2 * Zpos p + 1).
    replace (Z.succ (Zpos (digits2_pos p)) - 1) with (Z.succ (Zpos (digits2_pos p) - 1)) by lia.
    rewrite !Z.pow_succ_r by lia. lia.
  - rewrite Pos2Z.inj_succ. change (Zpos p~0) with (2 * Zpos p).
    replace (Z.succ (Zpos (digits2_pos p)) - 1) with (Z.succ (Zpos (digits2_pos p) - 1)) by lia.
    rewrite !Z.pow_succ_r by lia. lia.
  - cbn. lia.
Qed.

Lemma digits_le (p : positive) (d : Z) :
  0 ≤ d → Zpos p < 2 ^ d → Zpos (digits2_pos p) ≤ d.
Proof.
  intros Hd Hp. pose proof (digits_bounds p) as [Hlo _].
  destruct (Z_le_gt_dec (Zpos (digits2_pos p)) d) as [|Hgt]; [done|].
  assert (2 ^ d ≤ 2 ^ (Zpos (digits2_pos p) - 1)) by (apply Z.pow_le_mono_r; lia).
  lia.
Qed.

Lemma digits_mono (p q : positive) :
  Zpos p ≤ Zpos q → Zpos (digits2_pos p) ≤ Zpos (digits2_pos q).
Proof.
  intros Hpq. apply digits_le; [lia|].
  pose proof (digits_bounds q). lia.
Qed.

(** *** Rounding a value that needs none *)

Lemma shr_exact (m : positive) (t : positive) :
  SpecFloat.iter_pos shr_1 t {| shr_m := Zpos (Pos.iter xO m t); shr_r := false; shr_s := false |}
  = {| shr_m := Zpos m; shr_r := false; shr_s := false |}.
Proof.
  rewrite iter_pos_iter.
  induction t as [|t IH] using Pos.peano_ind.
  - reflexivity.
  - rewrite Pos.iter_succ_r. rewrite Pos.iter_succ. cbn [shr_1 orb]. exact IH.
Qed.

Lemma shr_fexp_shifted (m : positive) (t e : Z) :
  Zpos (digits2_pos m) = 53 → 0 ≤ t → -1074 ≤ e ≤ 971 →
  shr_fexp prec emax (Zpos (shl m t)) (e - t) loc_Exact
  = ({| shr_m := Zpos m; shr_r := false; shr_s := false |}, e).
Proof.
  intros Hd Ht He. unfold shr_fexp, shr_record_of_loc. cbn [Zdigits2].
  rewrite shl_digits, Hd by done.
  assert (fexp prec emax (53 + t + (e - t)) - (e - t) = t) as ->
    by (unfold fexp, emin, prec, emax; lia).
  destruct t as [|t|t]; [| |lia].
  - cbn [shr shl]. f_equal. lia.
  - cbn [shr shl]. rewrite shr_exact. f_equal. lia.
Qed.

Lemma round_aux_shifted (s : bool) (m : positive) (t e : Z) :
  Zpos (digits2_pos m) = 53 → 0 ≤ t → -1074 ≤ e ≤ 971 →
  binary_round_aux prec emax s (Zpos (shl m t)) (e - t) loc_Exact
  = S754_finite s m e.
Proof.
  intros Hd Ht He. unfold binary_round_aux.
  rewrite shr_fexp_shifted by done.
  cbn [shr_m loc_of_shr_record round_nearest_even].
  replace e with (e - 0) at 1 by lia.
  change (Zpos m) with (Zpos (shl m 0)).
  rewrite shr_fexp_shifted by (done || lia).
  cbn [shr_m].
  assert ((e <=? emax - prec) = true) as -> by (apply Z.leb_le; unfold prec, emax; lia).
  reflexivity.
Qed.

(** [binary_round] of [p * 2^j] at exponent [-j]. *)
Lemma binary_round_scaled (s : bool) (p : positive) (j : Z) :
  Zpos (digits2_pos p) ≤ 53 → 0 ≤ j →
  binary_round prec emax s (shl p j) (- j) = canonical s p.
Proof.
  intros Hd Hj. pose proof (Pos2Z.is_pos (digits2_pos p)) as Hpos.
  unfold binary_round, shl_align.
  rewrite shl_digits by done.
  assert (fexp prec emax (Zpos (digits2_pos p) + j + - j) = Zpos (digits2_pos p) - 53)
    as -> by (unfold fexp, emin, prec, emax; lia).
  unfold canonical.
  set (d := Zpos (digits2_pos p)) in *.
  set (m := shl p (53 - d)).
  assert (Zpos (digits2_pos m) = 53) as Hm
    by (unfold m; rewrite shl_digits by lia; fold d; lia).
  destruct (d - 53 - - j) as [|k|k] eqn:Hk.
  - assert (shl p j = shl m (j - (53 - d))) as ->
      by (unfold m; rewrite shl_shl by lia; f_equal; lia).
    replace (- j) with (d - 53 - (j - (53 - d))) by lia.
    apply round_aux_shifted; [done|lia|lia].
  - assert (shl p j = shl m (j - (53 - d))) as ->
      by (unfold m; rewrite shl_shl by lia; f_equal; lia).
    replace (- j) with (d - 53 - (j - (53 - d))) by lia.
    apply round_aux_shifted; [done|lia|lia].
  - assert (Pos.iter xO (shl p j) k = shl m 0) as ->.
    { change (Pos.iter xO (shl p j) k) with (shl (shl p j) (Zpos k)).
      change (shl m 0) with m. unfold m.
      rewrite shl_shl by lia. f_equal. lia. }
    replace (d - 53) with (d - 53 - 0) at 1 by lia.
    apply round_aux_shifted; [done|lia|lia].
Qed.

(** *** Integers of at most 53 bits are represented exactly *)

Lemma of_Z_pos (p : positive) :
  Zpos p < 2 ^ 53 → of_Z (Zpos p) = canonical false p.
Proof.
  intros Hp. unfold of_Z, binary_normalize.
  change p with (shl p 0) at 1. change 0 with (- 0) at 2.
  apply binary_round_scaled; [|done]. by apply digits_le.
Qed.

Lemma of_Z_neg (p : positive) :
  Zpos p < 2 ^ 53 → of_Z (Zneg p) = canonical true p.
Proof.
  intros Hp. unfold of_Z, binary_normalize.
  change p with (shl p 0) at 1. change 0 with (- 0) at 2.
  apply binary_round_scaled; [|done]. by apply digits_le.
Qed.

(** The sign, mantissa and exponent of a non-zero integer. *)
Lemma of_Z_finite (z : Z) :
  z ≠ 0 → Z.abs z < 2 ^ 53 →
  ∃ s m e, of_Z z = S754_finite s m e ∧ e ≤ 0
           ∧ cond_Zopp s (Zpos m) = z * 2 ^ (- e).
Proof.
  intros Hz Hb. destruct z as [|p|p]; [done| |].
  - rewrite of_Z_pos by lia. eexists _, _, _. split; [reflexivity|].
    assert (Zpos (digits2_pos p) ≤ 53) by (apply digits_le; lia).
    split; [lia|]. cbn [cond_Zopp]. rewrite shl_spec by lia. f_equal. f_equal. lia.
  - rewrite of_Z_neg by lia. eexists _, _, _. split; [reflexivity|].
    assert (Zpos (digits2_pos p) ≤ 53) by (apply digits_le; lia).
    split; [lia|]. cbn [cond_Zopp]. rewrite shl_spec by lia.
    replace (- (Zpos (digits2_pos p) - 53)) with (53 - Zpos (digits2_pos p)) by lia.
    lia.
Qed.

Lemma of_Z_is_finite (z : Z) : Z.abs z < 2 ^ 53 → finite (of_Z z) = true.
Proof.
  intros Hb. destruct (decide (z = 0)) as [-> | Hz]; [reflexivity|].
  destruct (of_Z_finite z Hz Hb) as (s & m & e & -> & _). reflexivity.
Qed.

(** [z * 2^j] at exponent [-j] normalises to [z]. *)
Lemma binary_normalize_scaled (z j : Z) :
  Z.abs z < 2 ^ 53 → 0 ≤ j →
  binary_normalize prec emax (z * 2 ^ j) (- j) false = of_Z z.
Proof.
  intros Hb Hj. destruct z as [|p|p].
  - reflexivity.
  - rewrite of_Z_pos by lia. rewrite <- shl_spec by done.
    apply binary_round_scaled; [|done]. apply digits_le; lia.
  - rewrite of_Z_neg by lia.
    change (Zneg p) with (- Zpos p). rewrite Z.mul_opp_l, <- shl_spec by done.
    apply binary_round_scaled; [|done]. apply digits_le; lia.
Qed.

Lemma binary_normalize_aligned (z e : Z) :
  Z.abs z < 2 ^ 53 → e ≤ 0 →
  binary_normalize prec emax (z * 2 ^ (- e)) e false = of_Z z.
Proof.
  intros Hb He. rewrite <- (Z.opp_involutive e) at 2.
  apply binary_normalize_scaled; [done|lia].
Qed.

Lemma shl_align_spec (m : positive) (e ez : Z) :
  ez ≤ e → Zpos (shl_align m e ez).1 = Zpos m * 2 ^ (e - ez).
Proof.
  intros He. unfold shl_align. destruct (ez - e) as [|k|k] eqn:Hk; cbn [fst].
  - replace (e - ez) with 0 by lia. lia.
  - lia.
  - rewrite iter_xO_spec. f_equal. f_equal. lia.
Qed.

Lemma cond_Zopp_mul (s : bool) (a b : Z) : cond_Zopp s (a * b) = cond_Zopp s a * b.
Proof. destruct s; cbn; lia. Qed.

Lemma aligned (s : bool) (m : positive) (e ez z : Z) :
  ez ≤ e → e ≤ 0 → cond_Zopp s (Zpos m) = z * 2 ^ (- e) →
  cond_Zopp s (Zpos (shl_align m e ez).1) = z * 2 ^ (- ez).
Proof.
  intros He He0 Hz. rewrite shl_align_spec, cond_Zopp_mul, Hz by done.
  rewrite <- Z.mul_assoc, <- Z.pow_add_r by lia. f_equal. f_equal. lia.
Qed.

(** Sums, differences and doubles of integers are exact while the result
    fits 53 bits. *)
Lemma add_of_Z (a b : Z) :
  Z.abs a < 2 ^ 53 → Z.abs b < 2 ^ 53 → Z.abs (a + b) < 2 ^ 53 →
  add (of_Z a) (of_Z b) = of_Z (a + b).
Proof.
  intros Ha Hb Hab.
  destruct (decide (a = 0)) as [-> | Ha0].
  { destruct (decide (b = 0)) as [-> | Hb0]; [reflexivity|].
    destruct (of_Z_finite b Hb0 Hb) as (s & m & e & Hr & _).
    change (0 + b) with b. rewrite Hr. reflexivity. }
  destruct (of_Z_finite a Ha0 Ha) as (sa & ma & ea & Hra & Hea & Hva).
  destruct (decide (b = 0)) as [-> | Hb0].
  { rewrite Z.add_0_r, Hra. reflexivity. }
  destruct (of_Z_finite b Hb0 Hb) as (sb & mb & eb & Hrb & Heb & Hvb).
  rewrite Hra, Hrb. unfold add, SFadd.
  rewrite (aligned sa ma ea (Z.min ea eb) a), (aligned sb mb eb (Z.min ea eb) b)
    by (done || lia).
  rewrite <- Z.mul_add_distr_r.
  apply binary_normalize_aligned; [done|lia].
Qed.

Lemma sub_of_Z (a b : Z) :
  Z.abs a < 2 ^ 53 → Z.abs b < 2 ^ 53 → Z.abs (a - b) < 2 ^ 53 →
  sub (of_Z a) (of_Z b) = of_Z (a - b).
Proof.
  intros Ha Hb Hab.
  destruct (decide (b = 0)) as [-> | Hb0].
  { rewrite Z.sub_0_r. destruct (decide (a = 0)) as [-> | Ha0]; [reflexivity|].
    destruct (of_Z_finite a Ha0 Ha) as (s & m & e & -> & _). reflexivity. }
  destruct (of_Z_finite b Hb0 Hb) as (sb & mb & eb & Hrb & Heb & Hvb).
  destruct (decide (a = 0)) as [-> | Ha0].
  { change (0 - b) with (- b). rewrite Hrb. cbn.
    destruct b as [|p|p]; [done| |].
    - rewrite of_Z_pos in Hrb by lia. change (- Zpos p) with (Zneg p).
      rewrite of_Z_neg by lia. injection Hrb as <- <- <-. reflexivity.
    - rewrite of_Z_neg in Hrb by lia. change (- Zneg p) with (Zpos p).
      rewrite of_Z_pos by lia. injection Hrb as <- <- <-. reflexivity. }
  destruct (of_Z_finite a Ha0 Ha) as (sa & ma & ea & Hra & Hea & Hva).
  rewrite Hra, Hrb. unfold sub, SFsub.
  rewrite (aligned sa ma ea (Z.min ea eb) a), (aligned sb mb eb (Z.min ea eb) b)
    by (done || lia).
  rewrite <- Z.mul_sub_distr_r.
  apply binary_normalize_aligned; [done|lia].
Qed.


(** *** Comparison *)

Lemma compare_canonical (p q : positive) :
  Zpos p < 2 ^ 53 → Zpos q < 2 ^ 53 →
  match Zpos (digits2_pos p) - 53 ?= Zpos (digits2_pos q) - 53 with
  | Lt => Lt
  | Gt => Gt
  | Eq => Pos.compare_cont Eq (shl p (53 - Zpos (digits2_pos p)))
            (shl q (53 - Zpos (digits2_pos q)))
  end = (Zpos p ?= Zpos q).
Proof.
  intros Hp Hq.
  assert (Zpos (digits2_pos p) ≤ 53) as Hdp by (by apply digits_le).
  assert (Zpos (digits2_pos q) ≤ 53) as Hdq by (by apply digits_le).
  pose proof (digits_bounds p) as [Hp1 Hp2].
  pose proof (digits_bounds q) as [Hq1 Hq2].
  destruct (Z.compare_spec (Zpos (digits2_pos p) - 53) (Zpos (digits2_pos q) - 53))
    as [He | He | He].
  - assert (Zpos (digits2_pos p) = Zpos (digits2_pos q)) as Hd by lia.
    rewrite <- Hd.
    change (Pos.compare_cont Eq ?a ?b) with (Zpos a ?= Zpos b).
    rewrite !shl_spec by lia.
    assert (0 < 2 ^ (53 - Zpos (digits2_pos p))) as Hc
      by (apply Z.pow_pos_nonneg; lia).
    destruct (Z.compare_spec (Zpos p) (Zpos q)) as [H | H | H].
    + rewrite H. apply Z.compare_refl.
    + by apply Z.compare_lt_iff, Z.mul_lt_mono_pos_r.
    + by apply Z.compare_gt_iff, Z.mul_lt_mono_pos_r.
  - symmetry. apply Z.compare_lt_iff.
    assert (2 ^ Zpos (digits2_pos p) ≤ 2 ^ (Zpos (digits2_pos q) - 1))
      by (apply Z.pow_le_mono_r; lia).
    lia.
  - symmetry. apply Z.compare_gt_iff.
    assert (2 ^ Zpos (digits2_pos q) ≤ 2 ^ (Zpos (digits2_pos p) - 1))
      by (apply Z.pow_le_mono_r; lia).
    lia.
Qed.

(** Integers of at most 53 bits compare as numbers the way they compare as
    integers. *)
Lemma compare_of_Z (a b : Z) :
  Z.abs a < 2 ^ 53 → Z.abs b < 2 ^ 53 →
  SFcompare (of_Z a) (of_Z b) = Some (a ?= b).
Proof.
  intros Ha Hb. destruct a as [|p|p], b as [|q|q];
    rewrite ?of_Z_pos, ?of_Z_neg by lia; try reflexivity.
  - cbn [canonical SFcompare]. f_equal. apply compare_canonical; lia.
  - cbn [canonical SFcompare]. f_equal.
    change (Zneg p ?= Zneg q) with (CompOpp (Zpos p ?= Zpos q)).
    rewrite <- compare_canonical by lia.
    by destruct (Zpos (digits2_pos p) - 53 ?= Zpos (digits2_pos q) - 53).
Qed.

Lemma le_of_Z (a b : Z) :
  Z.abs a < 2 ^ 53 → Z.abs b < 2 ^ 53 → le (of_Z a) (of_Z b) = (a <=? b).
Proof.
  intros Ha Hb. unfold le, SFleb. rewrite compare_of_Z by done.
  unfold Z.leb. by destruct (a ?= b).
Qed.

Lemma gt_of_Z (a b : Z) :
  Z.abs a < 2 ^ 53 → Z.abs b < 2 ^ 53 → gt (of_Z a) (of_Z b) = (b <? a).
Proof.
  intros Ha Hb. unfold gt, SFltb. rewrite compare_of_Z by done.
  unfold Z.ltb. by destruct (b ?= a).
Qed.

(** The order of [SFcompare] is transitive, whatever the operands. *)
Lemma lt_le_trans (x y z : number) :
  le x y = true → lt y z = true → lt x z = true.
Proof.
  unfold le, lt, SFleb, SFltb.
  destruct x as [sx|sx| |sx mx ex], y as [sy|sy| |sy my ey], z as [sz|sz| |sz mz ez];
    cbn [SFcompare]; try done;
    try (by destruct sx, sy, sz).
  destruct sx, sy, sz; try done.
  - destruct (Z.compare_spec ex ey), (Z.compare_spec ey ez), (Z.compare_spec ex ez);
      try done; try lia; subst.
    change (Pos.compare_cont Eq ?a ?b) with (a ?= b)%positive.
    destruct (Pos.compare_spec mx my), (Pos.compare_spec my mz),
      (Pos.compare_spec mx mz); try done; lia.
  - destruct (Z.compare_spec ex ey), (Z.compare_spec ey ez), (Z.compare_spec ex ez);
      try done; try lia; subst.
    change (Pos.compare_cont Eq ?a ?b) with (a ?= b)%positive.
    destruct (Pos.compare_spec mx my), (Pos.compare_spec my mz),
      (Pos.compare_spec mx mz); try done; lia.
Qed.



(** *** Where [NaN] can come from *)











Lemma number_truthy_of_Z (z : Z) :
  Z.abs z < 2 ^ 53 → number_truthy (of_Z z) = negb (z =? 0).
Proof.
  intros Hb. destruct (decide (z = 0)) as [-> | Hz]; [reflexivity|].
  destruct (of_Z_finite z Hz Hb) as (s & m & e & -> & _).
  symmetry. by apply negb_true_iff, Z.eqb_neq.
Qed.

(** *** Attributes of type [long] *)

Lemma to_long_range (z : Z) : -2147483648 ≤ to_long z ≤ 2147483647.
Proof. unfold to_long. lia. Qed.

Lemma to_long_id (z : Z) : -2147483648 ≤ z ≤ 2147483647 → to_long z = z.
Proof. unfold to_long. lia. Qed.

Lemma of_long_of_Z (z : Z) :
  -2147483648 ≤ z ≤ 2147483647 → of_long z = of_Z z.
Proof. intros Hz. unfold of_long. by rewrite to_long_id. Qed.

Lemma of_long_finite (z : Z) : finite (of_long z) = true.
Proof. apply of_Z_is_finite. pose proof (to_long_range z). lia. Qed.


Lemma of_long_mono (a b : Z) : a ≤ b → le (of_long a) (of_long b) = true.
Proof.
  intros Hab. unfold of_long.
  pose proof (to_long_range a). pose proof (to_long_range b).
  rewrite le_of_Z by lia. apply Z.leb_le. unfold to_long. lia.
Qed.

End NumberProps.

(* ================================================================== *)
(** ** Properties of the theme manager *)
(* ================================================================== *)

Module ThemeManagerProps.

Import JS ThemeManager.

Lemma supported_cases (v : string) :
  v ∈ supported ↔ v = "light" ∨ v = "dark" ∨ v = "high-contrast".
Proof. unfold supported. rewrite !elem_of_cons, elem_of_nil. tauto. Qed.

Lemma themes_lookup_supported (v : string) :
  v ∈ supported → is_Some (themes !! v).
Proof.
  rewrite supported_cases. intros [-> | [-> | ->]]; vm_compute; eauto.
Qed.

Lemma themes_lookup_unsupported (x : string) :
  x ∉ supported → themes !! x = None.
Proof.
  rewrite supported_cases. intros Hx. unfold themes.
  rewrite !lookup_insert_ne by (intros <-; tauto).
  apply lookup_singleton_ne. intros <-; tauto.
Qed.

Lemma themes_keys (k : string) : is_Some (themes !! k) ↔ k ∈ supported.
Proof.
  split; [|apply themes_lookup_supported].
  intros Hk. destruct (decide (k ∈ supported)) as [|Hn]; [done|].
  rewrite (themes_lookup_unsupported k Hn) in Hk. by destruct Hk.
Qed.

Lemma themes_get_supported (v : string) :
  v ∈ supported → property_truthy (themes_get v) = true.
Proof.
  intros [d Hd]%themes_lookup_supported. unfold themes_get. by rewrite Hd.
Qed.

(** Outside the table and outside [Object.prototype] the read is
    [undefined]. *)
Lemma themes_get_unknown (x : string) :
  x ∉ supported → x ∉ Object_prototype → themes_get x = Undefined.
Proof.
  intros Hx Hp. unfold themes_get. rewrite themes_lookup_unsupported by done.
  by rewrite bool_decide_eq_false_2.
Qed.

Lemma themes_get_inherited (x : string) :
  x ∈ Object_prototype → themes_get x = Inherited.
Proof.
  intros Hp. unfold Object_prototype in Hp.
  repeat (apply elem_of_cons in Hp as [->|Hp]; [by vm_compute|]).
  by apply elem_of_nil in Hp.
Qed.

Lemma supported_nonempty (v : string) : v ∈ supported → truthy (Some v) = true.
Proof. rewrite supported_cases. intros [-> | [-> | ->]]; reflexivity. Qed.

(** What [switchTheme] leaves behind when the guard lets the call pass. *)
Lemma switchTheme_accepted (theme : string) (s : State) :
  property_truthy (themes_get theme) = true →
  currentTheme (switchTheme theme s) = theme
  ∧ getItem "preferred-theme" (switchTheme theme s) = Some theme
  ∧ documentElement_attributes (document (switchTheme theme s)) !! "data-bs-theme"
    = Some theme.
Proof.
  intros Hok. unfold switchTheme. rewrite Hok. cbn.
  split; [done|]. split.
  - unfold getItem. cbn. apply lookup_insert_eq.
  - unfold focusThemeButton, updateThemeUI_document, applyTheme,
      updateHeroSvg, updateCodeTheme, setRootAttribute. cbn.
    repeat (case_match; cbn); simplify_eq/=; apply lookup_insert_eq.
Qed.

(** The guard of [switchTheme] rejects every identifier that is neither a
    theme nor a member of [Object.prototype]. *)
Lemma switchTheme_rejected (x : string) (s : State) :
  x ∉ supported → x ∉ Object_prototype → switchTheme x s = s.
Proof.
  intros Hx Hp. unfold switchTheme. by rewrite themes_get_unknown.
Qed.

Lemma currentTheme_loadTheme (w : Window) (s : State) :
  currentTheme (loadTheme w s) =
    match getItem "preferred-theme" s with
    | Some t =>
        if truthy (Some t) && property_truthy (themes_get t)
        then t else systemTheme w
    | None => systemTheme w
    end.
Proof.
  unfold loadTheme. destruct (getItem _ s) as [t|]; [|done].
  by destruct (truthy (Some t) && property_truthy (themes_get t)).
Qed.

(** C2: for every supported variant [v], [switchTheme v] makes [v] current
    and a later [loadTheme] on the same persisted store (whatever the
    manager, the page and the system preference are then) yields [v]. *)
Theorem switchTheme_then_loadTheme (v : string) (w : Window) (s : State)
    (t : string) (d : Document) :
  v ∈ supported →
  currentTheme (switchTheme v s) = v
  ∧ currentTheme
      (loadTheme w {| currentTheme := t; document := d;
                      localStorage := localStorage (switchTheme v s) |}) = v
  ∧ currentTheme (construct w d (localStorage (switchTheme v s))) = v.
Proof.
  intros Hv.
  pose proof (themes_get_supported v Hv) as Hok.
  destruct (switchTheme_accepted v s Hok) as (Hcur & Hget & _).
  split; [done|].
  assert (∀ t', currentTheme
      (loadTheme w {| currentTheme := t'; document := d;
                      localStorage := localStorage (switchTheme v s) |}) = v) as Hload.
  { intros t'. rewrite currentTheme_loadTheme. unfold getItem in *.
    cbn [localStorage]. rewrite Hget.
    by rewrite (supported_nonempty v Hv), Hok. }
  split; [apply Hload|].
  unfold construct, init, updateThemeUI, with_document.
  cbn [currentTheme]. apply Hload.
Qed.

Lemma switchTheme_then_loadTheme_witness :
  "high-contrast" ∈ supported
  ∧ currentTheme
      (loadTheme Examples.dark_system
         {| currentTheme := "light"; document := Examples.page;
            localStorage :=
              localStorage (switchTheme "high-contrast" Examples.first_visit) |})
    = "high-contrast".
Proof.
  assert ("high-contrast" ∈ supported) as H by (unfold supported; set_solver).
  split; [exact H|].
  exact (proj1 (proj2 (switchTheme_then_loadTheme "high-contrast"
           Examples.dark_system Examples.first_visit "light" Examples.page H))).
Defined.

(** *** The guard [this.themes[x]] and the prototype chain *)

Lemma switchTheme_inherited (x : string) (s : State) :
  x ∈ Object_prototype →
  currentTheme (switchTheme x s) = x
  ∧ getItem "preferred-theme" (switchTheme x s) = Some x
  ∧ documentElement_attributes (document (switchTheme x s)) !! "data-bs-theme"
    = Some x.
Proof.
  intros Hx. apply switchTheme_accepted. by rewrite themes_get_inherited.
Qed.

(** C3, at the identifier ["constructor"]: it is not a supported variant,
    yet [switchTheme] lets it through, because [this.themes.constructor]
    is inherited from [Object.prototype] and truthy.  The call makes it the
    current variant, writes it to the root attribute and persists it, where
    the claim asks for a silent no-op. *)
Theorem switchTheme_constructor_accepted (s : State) :
  ("constructor" ∉ supported)
  ∧ currentTheme (switchTheme "constructor" s) = "constructor"
  ∧ getItem "preferred-theme" (switchTheme "constructor" s) = Some "constructor"
  ∧ documentElement_attributes (document (switchTheme "constructor" s))
      !! "data-bs-theme" = Some "constructor"
  ∧ switchTheme "constructor" Examples.first_visit ≠ Examples.first_visit.
Proof.
  assert ("constructor" ∈ Object_prototype) as Hp
    by (unfold Object_prototype; apply elem_of_cons; by left).
  destruct (switchTheme_inherited "constructor" s Hp) as (H1 & H2 & H3).
  refine (conj _ (conj H1 (conj H2 (conj H3 _)))).
  { rewrite supported_cases. intros [H | [H | H]]; discriminate H. }
  intros Heq. apply (f_equal currentTheme) in Heq.
  rewrite (proj1 (switchTheme_inherited "constructor" _ Hp)) in Heq.
  discriminate Heq.
Qed.

(** *** The fallback chain of [loadTheme] *)

Lemma systemTheme_unavailable (w : Window) :
  matchMedia w = None → systemTheme w = "light".
Proof. unfold systemTheme, matchMedia_matches. by intros ->. Qed.

Lemma systemTheme_available (w : Window) (f : string → bool) :
  matchMedia w = Some f →
  systemTheme w = if f prefers_dark then "dark" else "light".
Proof. unfold systemTheme, matchMedia_matches. by intros ->. Qed.

Lemma loadTheme_persisted (w : Window) (s : State) (v : string) :
  v ∈ supported → getItem "preferred-theme" s = Some v →
  currentTheme (loadTheme w s) = v.
Proof.
  intros Hv Hs. rewrite currentTheme_loadTheme, Hs.
  by rewrite (supported_nonempty v Hv), themes_get_supported.
Qed.

Lemma loadTheme_absent (w : Window) (s : State) :
  getItem "preferred-theme" s = None →
  currentTheme (loadTheme w s) = systemTheme w.
Proof. intros Hs. by rewrite currentTheme_loadTheme, Hs. Qed.

Lemma loadTheme_unrecognized (w : Window) (s : State) (x : string) :
  x ∉ supported → x ∉ Object_prototype →
  getItem "preferred-theme" s = Some x →
  currentTheme (loadTheme w s) = systemTheme w.
Proof.
  intros Hx Hp Hs. rewrite currentTheme_loadTheme, Hs.
  rewrite themes_get_unknown by done. by rewrite andb_false_r.
Qed.

Lemma loadTheme_inherited (w : Window) (s : State) (x : string) :
  x ∈ Object_prototype → getItem "preferred-theme" s = Some x →
  currentTheme (loadTheme w s) = x.
Proof.
  intros Hp Hs. rewrite currentTheme_loadTheme, Hs.
  rewrite themes_get_inherited by done.
  unfold Object_prototype in Hp.
  repeat (apply elem_of_cons in Hp as [-> | Hp]; [reflexivity|]).
  by apply elem_of_nil in Hp.
Qed.

(** C4, at the persisted value ["constructor"]: the value is unrecognized
    and the system asks for dark, so the claim's chain gives dark (as it
    does when the key is absent); [loadTheme] instead keeps
    ["constructor"] as the current variant, because the membership test
    [this.themes[savedTheme]] finds the inherited property. *)
Theorem loadTheme_constructor_kept (t : string) (d : Document)
    (store : gmap string string) :
  ("constructor" ∉ supported)
  ∧ currentTheme
      (loadTheme Examples.dark_system
         {| currentTheme := t; document := d;
            localStorage := <["preferred-theme" := "constructor"]> store |})
    = "constructor"
  ∧ currentTheme
      (loadTheme Examples.dark_system
         {| currentTheme := t; document := d;
            localStorage := delete "preferred-theme" store |})
    = "dark".
Proof.
  split.
  { rewrite supported_cases. intros [H | [H | H]]; discriminate H. }
  split.
  - apply loadTheme_inherited.
    + unfold Object_prototype. apply elem_of_cons. by left.
    + unfold getItem. cbn. apply lookup_insert_eq.
  - rewrite loadTheme_absent; [reflexivity|].
    unfold getItem. cbn. apply lookup_delete_eq.
Qed.

(** *** System preference changes *)

Lemma onSystemThemeChange_ignored (m : bool) (s : State) :
  truthy (getItem "preferred-theme" s) = true → onSystemThemeChange m s = s.
Proof. unfold onSystemThemeChange. by intros ->. Qed.

Lemma notify_ignored (changes : list bool) (s : State) :
  truthy (getItem "preferred-theme" s) = true → notify s changes = s.
Proof.
  intros Hs. induction changes as [|m changes IH]; [done|].
  unfold notify in *. cbn. by rewrite onSystemThemeChange_ignored.
Qed.

Lemma system_choice_accepted (m : bool) :
  property_truthy (themes_get (if m then "dark" else "light")) = true.
Proof. by destruct m. Qed.

Lemma construct_loadTheme (w : Window) (d : Document) (store : gmap string string) :
  let s0 := {| currentTheme := "light"; document := d; localStorage := store |} in
  currentTheme (construct w d store) = currentTheme (loadTheme w s0)
  ∧ localStorage (construct w d store) = store.
Proof.
  unfold construct, init, updateThemeUI, loadTheme, getItem, with_document,
    with_currentTheme. cbn [localStorage currentTheme document].
  destruct (store !! "preferred-theme") as [t|]; [|done].
  by destruct (truthy (Some t) && property_truthy (themes_get t)).
Qed.

(** C5 (code bug).  Two parts of the claim hold: with nothing persisted a
    notification is [switchTheme] of dark or light, and after [switchTheme]
    of a supported variant no sequence of notifications changes anything,
    so an explicit choice is never overridden.  The claim fails on a
    persisted value that is not recognized (a renamed variant, say).  When
    the page loads, [loadTheme] (line 34) treats such a value as absent and
    follows the system scheme; the listener (line 123) tests only the
    truthiness of the stored string and ignores every notification, where
    the claim has it behave as [switchTheme].  With ["solarized"] stored
    and a dark system the manager starts dark, and stays dark when the
    system turns light. *)
Theorem onSystemThemeChange_stale_preference :
  (∀ (m : bool) (s : State),
     getItem "preferred-theme" s = None →
     onSystemThemeChange m s = switchTheme (if m then "dark" else "light") s)
  ∧ (∀ (v : string) (changes : list bool) (s : State),
       v ∈ supported → notify (switchTheme v s) changes = switchTheme v s)
  ∧ (∀ (w : Window) (d : Document) (store : gmap string string) (x : string)
       (m : bool),
       store !! "preferred-theme" = Some x →
       x ≠ EmptyString → x ∉ supported → x ∉ Object_prototype →
       let s := construct w d store in
       currentTheme s = systemTheme w
       ∧ onSystemThemeChange m s = s
       ∧ currentTheme (switchTheme (if m then "dark" else "light") s)
         = (if m then "dark" else "light"))
  ∧ (let s := construct Examples.dark_system Examples.page
                (localStorage Examples.stale_preference) in
     currentTheme s = "dark"
     ∧ currentTheme (onSystemThemeChange false s) = "dark"
     ∧ currentTheme (switchTheme "light" s) = "light").
Proof.
  assert (∀ (w : Window) (d : Document) (store : gmap string string) (x : string)
            (m : bool),
            store !! "preferred-theme" = Some x →
            x ≠ EmptyString → x ∉ supported → x ∉ Object_prototype →
            let s := construct w d store in
            currentTheme s = systemTheme w
            ∧ onSystemThemeChange m s = s
            ∧ currentTheme (switchTheme (if m then "dark" else "light") s)
              = (if m then "dark" else "light")) as Hstale.
  { intros w d store x m Hs Hne Hx Hp s.
    destruct (construct_loadTheme w d store) as [Hc Hl]. cbn zeta in Hc.
    split; [|split].
    - unfold s. rewrite Hc. by apply (loadTheme_unrecognized w _ x).
    - apply onSystemThemeChange_ignored. unfold getItem, s. rewrite Hl, Hs.
      cbn. by apply negb_true_iff, String.eqb_neq.
    - apply switchTheme_accepted, system_choice_accepted. }
  split; [|split; [|split]].
  - intros m s Hs. unfold onSystemThemeChange. by rewrite Hs.
  - intros v changes s Hv. apply notify_ignored.
    destruct (switchTheme_accepted v s (themes_get_supported v Hv))
      as (_ & -> & _).
    by apply supported_nonempty.
  - exact Hstale.
  - assert ("solarized" ∉ supported) as Hx
      by (rewrite supported_cases; intros [H | [H | H]]; discriminate H).
    assert ("solarized" ∉ Object_prototype) as Hp
      by (unfold Object_prototype; rewrite !elem_of_cons, elem_of_nil;
          intros H; repeat (destruct H as [H | H]; [discriminate H|]); done).
    destruct (Hstale Examples.dark_system Examples.page
                (localStorage Examples.stale_preference) "solarized" false
                (lookup_singleton_eq _ _) ltac:(discriminate) Hx Hp)
      as (H1 & H2 & H3).
    cbn zeta. rewrite H2. split; [exact H1|]. split; [exact H1 | exact H3].
Qed.

Lemma onSystemThemeChange_stale_preference_witness :
  let store := localStorage Examples.stale_preference in
  let s := construct Examples.dark_system Examples.page store in
  store !! "preferred-theme" = Some "solarized"
  ∧ "solarized" ≠ EmptyString
  ∧ ("solarized" ∉ supported)
  ∧ ("solarized" ∉ Object_prototype)
  ∧ currentTheme s = systemTheme Examples.dark_system
  ∧ onSystemThemeChange false s = s
  ∧ currentTheme (switchTheme "light" s) = "light"
  ∧ notify (switchTheme "high-contrast" Examples.first_visit) [true; false]
    = switchTheme "high-contrast" Examples.first_visit.
Proof.
  intros store s.
  assert (store !! "preferred-theme" = Some "solarized") as H1
    by (vm_compute; reflexivity).
  assert ("solarized" ≠ EmptyString) as H2 by discriminate.
  assert ("solarized" ∉ supported) as H3
    by (apply (bool_decide_eq_false_1 ("solarized" ∈ supported));
        vm_compute; reflexivity).
  assert ("solarized" ∉ Object_prototype) as H4
    by (apply (bool_decide_eq_false_1 ("solarized" ∈ Object_prototype));
        vm_compute; reflexivity).
  assert ("high-contrast" ∈ supported) as H5
    by (apply (bool_decide_eq_true_1 ("high-contrast" ∈ supported));
        vm_compute; reflexivity).
  pose proof (proj1 (proj2 (proj2 onSystemThemeChange_stale_preference))
                Examples.dark_system Examples.page store "solarized" false
                H1 H2 H3 H4) as T.
  refine (conj H1 (conj H2 (conj H3 (conj H4 (conj (proj1 T)
            (conj (proj1 (proj2 T)) (conj (proj2 (proj2 T)) _))))))).
  exact (proj1 (proj2 onSystemThemeChange_stale_preference)
           "high-contrast" [true; false] Examples.first_visit H5).
Defined.

(** C10: a notification that arrives while nothing is persisted runs the
    whole of [switchTheme], which stores the derived variant; from then on
    a preference is persisted and every later notification is ignored. *)
Theorem onSystemThemeChange_persists (m : bool) (s : State) (later : list bool) :
  truthy (getItem "preferred-theme" s) = false →
  onSystemThemeChange m s = switchTheme (if m then "dark" else "light") s
  ∧ currentTheme (onSystemThemeChange m s) = (if m then "dark" else "light")
  ∧ getItem "preferred-theme" (onSystemThemeChange m s)
    = Some (if m then "dark" else "light")
  ∧ notify (onSystemThemeChange m s) later = onSystemThemeChange m s.
Proof.
  intros Hs.
  assert (onSystemThemeChange m s = switchTheme (if m then "dark" else "light") s)
    as Heq by (unfold onSystemThemeChange; by rewrite Hs).
  destruct (switchTheme_accepted _ s (system_choice_accepted m)) as (Hc & Hg & _).
  rewrite Heq. repeat split; try done.
  apply notify_ignored. rewrite Hg. by destruct m.
Qed.

Lemma onSystemThemeChange_persists_witness :
  truthy (getItem "preferred-theme" Examples.first_visit) = false
  ∧ getItem "preferred-theme" (onSystemThemeChange true Examples.first_visit)
    = Some "dark"
  ∧ notify (onSystemThemeChange true Examples.first_visit) [false; true; false]
    = onSystemThemeChange true Examples.first_visit.
Proof.
  assert (truthy (getItem "preferred-theme" Examples.first_visit) = false) as H
    by (vm_compute; reflexivity).
  split; [exact H|].
  pose (onSystemThemeChange_persists true Examples.first_visit
          [false; true; false] H) as T.
  exact (conj (proj1 (proj2 (proj2 T))) (proj2 (proj2 (proj2 T)))).
Defined.

(** *** Idempotence of the DOM writes *)

Lemma classList_add_idemp (tok : string) (cl : list string) :
  classList_add tok (classList_add tok cl) = classList_add tok cl.
Proof.
  unfold classList_add, classList_contains.
  destruct (decide (tok ∈ cl)) as [Hin | Hin].
  - by rewrite !(bool_decide_eq_true_2 _ Hin).
  - rewrite (bool_decide_eq_false_2 _ Hin).
    rewrite bool_decide_eq_true_2; [done|].
    apply elem_of_app. right. by apply list_elem_of_singleton.
Qed.

Lemma classList_remove_idemp (tok : string) (cl : list string) :
  classList_remove tok (classList_remove tok cl) = classList_remove tok cl.
Proof.
  unfold classList_remove. induction cl as [|c cl IH]; [done|].
  rewrite filter_cons. case_decide as Hc; [|exact IH].
  rewrite filter_cons. rewrite decide_True by done. by rewrite IH.
Qed.

Lemma classList_toggle_idemp (tok : string) (force : bool) (cl : list string) :
  classList_toggle tok force (classList_toggle tok force cl)
  = classList_toggle tok force cl.
Proof.
  destruct force; [apply classList_add_idemp | apply classList_remove_idemp].
Qed.

Lemma updateOption_idemp (current : string) (o : ThemeOption) :
  updateOption current (updateOption current o) = updateOption current o.
Proof.
  destruct o as [dt cl]. unfold updateOption. cbn.
  by rewrite classList_toggle_idemp.
Qed.

Lemma updateButton_idemp (p : property) (b : ThemeButton) :
  updateButton p (updateButton p b) = updateButton p b.
Proof.
  destruct b as [attrs ic txt]. unfold updateButton. cbn.
  rewrite insert_insert_eq. by destruct ic, txt.
Qed.

Lemma applyTheme_idemp (theme : string) (d : Document) :
  applyTheme theme (applyTheme theme d) = applyTheme theme d.
Proof.
  destruct d as [attrs href src btn opts foc].
  unfold applyTheme, updateHeroSvg, updateCodeTheme, setRootAttribute. cbn.
  destruct href, src; cbn; by rewrite insert_insert_eq.
Qed.

Lemma updateThemeUI_document_idemp (current : string) (d : Document) :
  updateThemeUI_document current (updateThemeUI_document current d)
  = updateThemeUI_document current d.
Proof.
  destruct d as [attrs href src btn opts foc].
  unfold updateThemeUI_document. cbn. f_equal.
  - destruct btn as [b|]; [|done].
    destruct (property_truthy (themes_get current)); [|done].
    by rewrite updateButton_idemp.
  - rewrite map_map. apply map_ext. intros o. apply updateOption_idemp.
Qed.

(** [applyTheme] and [updateThemeUI] write to disjoint parts of the page. *)
Lemma applyTheme_updateThemeUI_document (theme current : string) (d : Document) :
  applyTheme theme (updateThemeUI_document current d)
  = updateThemeUI_document current (applyTheme theme d).
Proof.
  destruct d as [attrs href src btn opts foc].
  unfold applyTheme, updateHeroSvg, updateCodeTheme, setRootAttribute,
    updateThemeUI_document. cbn.
  by destruct href, src.
Qed.

(** C9: [applyCurrent], that is [applyTheme] for the current theme followed
    by [updateThemeUI], is idempotent: whatever the current theme, the page
    and the store, a second call leaves the state of the first. *)
Theorem applyCurrent_idempotent (s : State) :
  applyCurrent (applyCurrent s) = applyCurrent s.
Proof.
  destruct s as [t d store].
  unfold applyCurrent, updateThemeUI, with_document. cbn. f_equal.
  rewrite applyTheme_updateThemeUI_document, applyTheme_idemp.
  apply updateThemeUI_document_idemp.
Qed.

End ThemeManagerProps.

(* ================================================================== *)
(** ** Properties of the breakpoint engine *)
(* ================================================================== *)

Module DynamicNavbarBreakpointProps.

Import JS DynamicNavbarBreakpoint NumberProps.

(** *** Numbers *)







(** [parseFloat] on computed values of [gap], and on literals that binary64
    cannot hold: a tenth, an odd integer above 2^53, values that overflow
    and underflow. *)
Example parseFloat_samples :
  parseFloat "8px" = of_Z 8
  ∧ parseFloat "7.5px" = of_ratio false 15 2
  ∧ parseFloat "7.5px" = S754_finite false 8444249301319680 (-50)
  ∧ parseFloat "16px 8px" = of_Z 16
  ∧ parseFloat "normal" = NaN
  ∧ parseFloat "normal 8px" = NaN
  ∧ parseFloat "1e2px" = of_Z 100
  ∧ parseFloat "-Infinity" = Infinity true
  ∧ parseFloat "-0px" = S754_zero true
  ∧ parseFloat "0.1px" = S754_finite false 7205759403792794 (-56)
  ∧ parseFloat "9007199254740993px" = of_Z 9007199254740992
  ∧ parseFloat "1e400px" = Infinity false
  ∧ parseFloat "1e-400px" = S754_zero false
  ∧ parseFloat "5e-324px" = S754_finite false 1 (-1074).
Proof. by vm_compute. Qed.

(** Sums are rounded: a gap of 1e-17 pixels is absorbed by widths of 550
    pixels, and a gap that underflows to zero is replaced by 8. *)
Example rounding_samples :
  add (add (of_Z 550) (mul (of_Z 2) (parseFloat "0.00000000000000001px")))
      (of_Z 5) = of_Z 555
  ∧ NavbarExamples.check_from
      (NavbarExamples.measured 555 "0.00000000000000001px") ["navbar"]
    = Some true
  ∧ gapWidth_of "1e-400px" = of_Z 8
  ∧ NavbarExamples.check_from (NavbarExamples.measured 560 "1e-400px") ["navbar"]
    = Some false.
Proof. by vm_compute. Qed.

(** *** Class lists *)

Lemma classList_contains_add (tok : string) (cl : list string) :
  classList_contains tok (classList_add tok cl) = true.
Proof.
  unfold classList_add, classList_contains.
  destruct (decide (tok ∈ cl)) as [Hin | Hin].
  - by rewrite !(bool_decide_eq_true_2 _ Hin).
  - rewrite (bool_decide_eq_false_2 _ Hin). apply bool_decide_eq_true_2.
    apply elem_of_app. right. by apply list_elem_of_singleton.
Qed.

Lemma classList_contains_remove (tok : string) (cl : list string) :
  classList_contains tok (classList_remove tok cl) = false.
Proof.
  unfold classList_remove, classList_contains. apply bool_decide_eq_false_2.
  intros [Hne _]%list_elem_of_filter. by apply Hne.
Qed.

(** *** One run of [checkBreakpoint] with every element in place *)

Section CheckRun.

Variable nb : Navbar.
Variables c b n t : element.
Variable w : World.

Let this : Engine :=
  {| container := Some c; brand := Some b; navbarNav := Some n;
     themeSelector := Some t |}.

Lemma checkBreakpoint_run :
  checkBreakpoint nb this w = Some (tt, after_check nb c b n t w).
Proof.
  unfold checkBreakpoint, after_check, collapses, measured_requiredWidth,
    measured_gapStyle, gap_reads, baseline, bind, this.
  cbn. destruct (querySelector nb ".navbar-collapse") as [e|]; cbn;
    match goal with |- context [gt ?x ?y] => destruct (gt x y) end; cbn;
    unfold new_Dropdown, log; cbn; rewrite <- ?app_assoc; reflexivity.
Qed.

Lemma expanded_after_check :
  expanded (after_check nb c b n t w) = negb (collapses nb c b n t w).
Proof.
  unfold expanded, after_check. cbn. destruct (collapses nb c b n t w).
  - apply classList_contains_remove.
  - apply classList_contains_add.
Qed.

End CheckRun.



(** *** A disabled engine *)

Lemma deliver_disabled (nb : Navbar) (this : Engine) (ev : notification) (w : World) :
  observed w = [] → timeouts w = [] → deliver nb this ev w = Some w.
Proof.
  intros Ho Ht. destruct ev as [target|]; cbn.
  - rewrite Ho. by rewrite bool_decide_eq_false_2 by apply not_elem_of_nil.
  - by rewrite Ht.
Qed.

Lemma run_disabled (nb : Navbar) (this : Engine) (ns : list notification) (w : World) :
  observed w = [] → timeouts w = [] → run nb this ns w = Some w.
Proof.
  intros Ho Ht. induction ns as [|ev ns IH]; [done|].
  cbn. rewrite deliver_disabled by done. exact IH.
Qed.

Lemma init_missing (this : Engine) (w : World) :
  is_null (container this) || is_null (brand this)
  || is_null (navbarNav this) || is_null (themeSelector this) = true →
  init this w = console_warn warning w.
Proof.
  unfold init.
  by destruct (container this), (brand this), (navbarNav this), (themeSelector this).
Qed.

(** With every element found, [init] observes the container and the nav
    links and schedules the first check; it logs nothing. *)
Lemma init_complete (c b n t : element) (w : World) :
  init {| container := Some c; brand := Some b; navbarNav := Some n;
          themeSelector := Some t |} w
  = setTimeout 150 (observe n (observe c w)).
Proof. reflexivity. Qed.

(** C6: when the container, the brand, the nav links or the theme control
    is not found at construction, [init] only logs the diagnostic: it
    registers no observer and no timer, and afterwards no sequence of resize
    notifications or timer ticks changes the class list of the navbar (or
    anything else). *)
Theorem init_missing_element_disables (nb : Navbar) (w : World)
    (ns : list notification) :
  let this := construct nb in
  is_null (container this) || is_null (brand this)
  || is_null (navbarNav this) || is_null (themeSelector this) = true →
  observed w = [] → timeouts w = [] →
  console (init this w) = console w ++ [warning]
  ∧ observed (init this w) = []
  ∧ timeouts (init this w) = []
  ∧ navbar_classList (init this w) = navbar_classList w
  ∧ effects (init this w) = effects w
  ∧ run nb this ns (init this w) = Some (init this w).
Proof.
  intros this Hnull Ho Ht. rewrite (init_missing this w Hnull).
  repeat split; try done.
  by apply run_disabled.
Qed.

Lemma init_missing_element_disables_witness :
  let nb := NavbarExamples.no_theme_control in
  let w := fresh ["navbar"; "navbar-expand-lg"] in
  let ns := [Resize NavbarExamples.container_el; TimerTick;
             Resize NavbarExamples.nav_el] in
  is_null (themeSelector (construct nb)) = true
  ∧ console (init (construct nb) w) = [warning]
  ∧ (navbar_classList <$> run nb (construct nb) ns (init (construct nb) w))
    = Some ["navbar"; "navbar-expand-lg"].
Proof.
  intros nb w ns.
  pose (init_missing_element_disables nb w ns
          (eq_refl : is_null (container (construct nb))
                     || is_null (brand (construct nb))
                     || is_null (navbarNav (construct nb))
                     || is_null (themeSelector (construct nb)) = true)
          eq_refl eq_refl) as T.
  split; [reflexivity|]. split; [exact (proj1 T)|].
  rewrite (proj2 (proj2 (proj2 (proj2 (proj2 T))))).
  reflexivity.
Defined.

(** *** Order of the class write and the layout reads *)


Lemma baseline_expanded (w : World) : "navbar-expand-lg" ∈ baseline w.
Proof.
  pose proof (classList_contains_add "navbar-expand-lg" (navbar_classList w)) as H.
  unfold classList_contains in H. by apply bool_decide_eq_true in H.
Qed.

(** C7: whatever class list the previous invocation left, the first thing
    [checkBreakpoint] does is add [navbar-expand-lg]; every layout read of
    the invocation (the three widths, the gap, the container) comes after
    it and is taken under a class list that contains the class. *)
Theorem checkBreakpoint_measures_expanded (nb : Navbar) (c b n t : element)
    (w : World) :
  let this := {| container := Some c; brand := Some b; navbarNav := Some n;
                 themeSelector := Some t |} in
  ∃ rest,
    checkBreakpoint nb this w = Some (tt, after_check nb c b n t w)
    ∧ effects (after_check nb c b n t w)
      = effects w ++ ClassAdded "navbar-expand-lg" :: rest
    ∧ "navbar-expand-lg" ∈ baseline w
    ∧ Forall (read_under (baseline w)) rest
    ∧ LayoutRead "offsetWidth" b (baseline w) ∈ rest
    ∧ LayoutRead "offsetWidth" n (baseline w) ∈ rest
    ∧ LayoutRead "offsetWidth" t (baseline w) ∈ rest
    ∧ LayoutRead "clientWidth" c (baseline w) ∈ rest.
Proof.
  intros this.
  exists ([ LayoutRead "offsetWidth" b (baseline w);
            LayoutRead "offsetWidth" n (baseline w);
            LayoutRead "offsetWidth" t (baseline w) ] ++
          gap_reads nb w ++
          [ LayoutRead "clientWidth" c (baseline w);
            if collapses nb c b n t w then ClassRemoved "navbar-expand-lg"
            else ClassAdded "navbar-expand-lg";
            DropdownCreated t ]).
  split; [apply checkBreakpoint_run|].
  split; [reflexivity|].
  split; [apply baseline_expanded|].
  split.
  - repeat (apply Forall_cons; split; [done|]).
    apply Forall_app. split.
    + unfold gap_reads. destruct (querySelector nb ".navbar-collapse").
      * by apply Forall_singleton.
      * apply Forall_nil_2.
    + apply Forall_cons. split; [done|]. apply Forall_cons. split.
      * by destruct (collapses nb c b n t w).
      * by apply Forall_singleton.
  - repeat split.
    + apply elem_of_cons. by left.
    + do 1 apply list_elem_of_further. apply elem_of_cons. by left.
    + do 2 apply list_elem_of_further. apply elem_of_cons. by left.
    + do 3 apply list_elem_of_further. apply elem_of_app. right.
      apply elem_of_cons. by left.
Qed.

(** C8, at the computed gap ["0px"]: the gap is read from the layout and is
    0, with which widths 100, 300, 150 fit a container of 560
    (550 + 5 <= 560); [parseFloat(gapStyle) || 8] takes the 0 for a missing
    value and uses 8, so the navbar collapses (566 + 5 > 560). *)
Theorem gapWidth_zero_replaced_by_default :
  parseFloat "0px" = of_Z 0
  ∧ gapWidth_of "0px" = of_Z 8
  ∧ le (add (requiredWidth_of (of_Z 100) (of_Z 300) (of_Z 150) (parseFloat "0px"))
            buffer) (of_Z 560) = true
  ∧ NavbarExamples.check_from (NavbarExamples.measured 560 "0px")
      ["navbar"; "navbar-expand-lg"] = Some false.
Proof. by vm_compute. Qed.

End DynamicNavbarBreakpointProps.

(* ================================================================== *)
(** ** Invariants of the theme manager *)
(* ================================================================== *)

Module ThemeEventsProps.

Import JS ThemeManager ThemeEvents.

(** *** [switchTheme], case by case *)

Lemma switchTheme_unfold (theme : string) (s : State) :
  switchTheme theme s =
    if property_truthy (themes_get theme)
    then {| currentTheme := theme;
            document :=
              focusThemeButton
                (updateThemeUI_document theme (applyTheme theme (document s)));
            localStorage := <["preferred-theme" := theme]> (localStorage s) |}
    else s.
Proof.
  unfold switchTheme. by destruct (property_truthy (themes_get theme)).
Qed.

Lemma construct_unfold (w : Window) (d : Document) (store : gmap string string) :
  ∃ t,
    construct w d store
    = {| currentTheme := t;
         document := updateThemeUI_document t (applyTheme t d);
         localStorage := store |}
    ∧ property_truthy (themes_get t) = true
    ∧ (t = systemTheme w
       ∨ store !! "preferred-theme" = Some t).
Proof.
  unfold construct, init, updateThemeUI, loadTheme, getItem, with_document,
    with_currentTheme. cbn [localStorage currentTheme document].
  destruct (store !! "preferred-theme") as [t|] eqn:Hs.
  - destruct (truthy (Some t) && property_truthy (themes_get t)) eqn:Hok.
    + exists t. cbn. apply andb_true_iff in Hok as [_ Hok]. auto.
    + exists (systemTheme w). cbn. split; [done|]. split; [|by left].
      unfold systemTheme. by destruct (default false _).
  - exists (systemTheme w). cbn. split; [done|]. split; [|by left].
    unfold systemTheme. by destruct (default false _).
Qed.

(** *** What each writer leaves in place *)

Lemma applyTheme_shows (theme : string) (d : Document) :
  shows theme (applyTheme theme d).
Proof.
  destruct d as [attrs href src btn opts foc].
  unfold shows, applyTheme, updateHeroSvg, updateCodeTheme, setRootAttribute.
  cbn. destruct href, src; cbn; (split; [apply lookup_insert_eq|]);
    split; intros x [= <-]; done.
Qed.

Lemma updateThemeUI_document_shows (theme current : string) (d : Document) :
  shows theme d → shows theme (updateThemeUI_document current d).
Proof. by destruct d. Qed.

Lemma focusThemeButton_shows (theme : string) (d : Document) :
  shows theme d → shows theme (focusThemeButton d).
Proof. destruct d as [attrs href src [b|] opts foc]; by cbn. Qed.

Lemma classList_contains_toggle (tok : string) (force : bool) (cl : list string) :
  classList_contains tok (classList_toggle tok force cl) = force.
Proof.
  destruct force; cbn.
  - apply DynamicNavbarBreakpointProps.classList_contains_add.
  - apply DynamicNavbarBreakpointProps.classList_contains_remove.
Qed.

Lemma updateThemeUI_document_marks (current : string) (d : Document) :
  marks current (updateThemeUI_document current d).
Proof.
  unfold marks, updateThemeUI_document. cbn.
  apply Forall_map, Forall_forall. intros o _. cbn.
  apply classList_contains_toggle.
Qed.

Lemma focusThemeButton_marks (theme : string) (d : Document) :
  marks theme d → marks theme (focusThemeButton d).
Proof. destruct d as [attrs href src [b|] opts foc]; by cbn. Qed.

Lemma updateThemeUI_document_announces (current : string) (d : Document) :
  property_truthy (themes_get current) = true →
  announces (themes_get current) (updateThemeUI_document current d).
Proof.
  intros Hok. unfold announces, updateThemeUI_document. cbn. rewrite Hok.
  destruct (themeDropdown d) as [[attrs ic txt]|]; [|done].
  intros b [= <-]. cbn. split; [apply lookup_insert_eq|].
  split; intros x Hx; destruct ic, txt; by simplify_eq.
Qed.

Lemma focusThemeButton_announces (p : property) (d : Document) :
  announces p d → announces p (focusThemeButton d).
Proof. destruct d as [attrs href src [b|] opts foc]; by cbn. Qed.

(** What holds of a state in which the page is in step with the manager. *)
Lemma in_step_switchTheme (theme : string) (s : State) :
  (shows (currentTheme s) (document s)
   ∧ marks (currentTheme s) (document s)
   ∧ announces (themes_get (currentTheme s)) (document s)) →
  let s' := switchTheme theme s in
  shows (currentTheme s') (document s')
  ∧ marks (currentTheme s') (document s')
  ∧ announces (themes_get (currentTheme s')) (document s').
Proof.
  intros Hs s'. unfold s'. rewrite switchTheme_unfold.
  destruct (property_truthy (themes_get theme)) eqn:Hok; [|exact Hs].
  cbn [currentTheme document]. split; [|split].
  - apply focusThemeButton_shows, updateThemeUI_document_shows, applyTheme_shows.
  - apply focusThemeButton_marks, updateThemeUI_document_marks.
  - by apply focusThemeButton_announces, updateThemeUI_document_announces.
Qed.

Lemma in_step_handle (w : Window) (ev : event) (s : State) :
  (shows (currentTheme s) (document s)
   ∧ marks (currentTheme s) (document s)
   ∧ announces (themes_get (currentTheme s)) (document s)) →
  let s' := handle w ev s in
  shows (currentTheme s') (document s')
  ∧ marks (currentTheme s') (document s')
  ∧ announces (themes_get (currentTheme s')) (document s').
Proof.
  intros Hs. destruct ev as [i | m]; cbn.
  - destruct (theme_options (document s) !! i) as [o|]; [|exact Hs].
    by apply in_step_switchTheme.
  - destruct (matchMedia w); [|exact Hs].
    unfold onSystemThemeChange.
    destruct (negb (truthy (getItem "preferred-theme" s))); [|exact Hs].
    by apply in_step_switchTheme.
Qed.

Lemma in_step_construct (w : Window) (d : Document) (store : gmap string string) :
  let s := construct w d store in
  shows (currentTheme s) (document s)
  ∧ marks (currentTheme s) (document s)
  ∧ announces (themes_get (currentTheme s)) (document s).
Proof.
  destruct (construct_unfold w d store) as (t & Heq & Hok & _).
  intros s. unfold s. rewrite Heq. cbn [currentTheme document]. split; [|split].
  - apply updateThemeUI_document_shows, applyTheme_shows.
  - apply updateThemeUI_document_marks.
  - by apply updateThemeUI_document_announces.
Qed.

Lemma in_step_run (w : Window) (evs : list event) (s : State) :
  (shows (currentTheme s) (document s)
   ∧ marks (currentTheme s) (document s)
   ∧ announces (themes_get (currentTheme s)) (document s)) →
  let s' := run w evs s in
  shows (currentTheme s') (document s')
  ∧ marks (currentTheme s') (document s')
  ∧ announces (themes_get (currentTheme s')) (document s').
Proof.
  revert s. induction evs as [|ev evs IH]; intros s Hs; [exact Hs|].
  cbn. apply IH. by apply in_step_handle.
Qed.

(** X1: from construction on, whatever options are clicked and however the
    system scheme changes, the page shows the manager's current theme: the
    root attribute [data-bs-theme] is [currentTheme], and the code stylesheet
    and the hero illustration, where present, are the ones of that theme. *)
Theorem page_shows_currentTheme (w : Window) (d : Document)
    (store : gmap string string) (evs : list event) :
  let s := run w evs (construct w d store) in
  shows (currentTheme s) (document s).
Proof. apply (in_step_run w evs), in_step_construct. Qed.

(** X2: from construction on, after every event, a [.theme-option] carries
    the class [active] exactly when its [data-theme] is the current theme;
    the state shipped in the markup does not matter. *)
Theorem switcher_marks_currentTheme (w : Window) (d : Document)
    (store : gmap string string) (evs : list event) :
  let s := run w evs (construct w d store) in
  marks (currentTheme s) (document s).
Proof. apply (in_step_run w evs), in_step_construct. Qed.

(** X3: from construction on, after every event, the dropdown button (when
    the page has one) announces the current theme: its [aria-label], the
    class of its icon and the text of [#current-theme] are those of the
    [themes] entry of [currentTheme]. *)
Theorem button_announces_currentTheme (w : Window) (d : Document)
    (store : gmap string string) (evs : list event) :
  let s := run w evs (construct w d store) in
  announces (themes_get (currentTheme s)) (document s).
Proof. apply (in_step_run w evs), in_step_construct. Qed.

(** *** Repeating a switch *)

Lemma focusThemeButton_idemp (d : Document) :
  focusThemeButton (focusThemeButton d) = focusThemeButton d.
Proof. by destruct d as [attrs href src [b|] opts foc]. Qed.

Lemma applyTheme_focusThemeButton (theme : string) (d : Document) :
  applyTheme theme (focusThemeButton d) = focusThemeButton (applyTheme theme d).
Proof.
  destruct d as [attrs href src [b|] opts foc];
    unfold applyTheme, updateHeroSvg, updateCodeTheme, setRootAttribute,
      focusThemeButton; cbn; by destruct href, src.
Qed.

Lemma updateThemeUI_document_focusThemeButton (current : string) (d : Document) :
  updateThemeUI_document current (focusThemeButton d)
  = focusThemeButton (updateThemeUI_document current d).
Proof.
  destruct d as [attrs href src [b|] opts foc];
    unfold updateThemeUI_document, focusThemeButton; cbn; [|done].
  by destruct (property_truthy (themes_get current)).
Qed.

(** X4: [switchTheme] is idempotent, for accepted and rejected identifiers
    alike: choosing the same theme a second time changes neither the manager,
    nor the page, nor the store. *)
Theorem switchTheme_idempotent (theme : string) (s : State) :
  switchTheme theme (switchTheme theme s) = switchTheme theme s.
Proof.
  rewrite (switchTheme_unfold theme s).
  destruct (property_truthy (themes_get theme)) eqn:Hok.
  - rewrite switchTheme_unfold, Hok. cbn [document localStorage]. f_equal.
    + rewrite applyTheme_focusThemeButton, updateThemeUI_document_focusThemeButton.
      rewrite focusThemeButton_idemp. f_equal.
      rewrite ThemeManagerProps.applyTheme_updateThemeUI_document.
      rewrite ThemeManagerProps.applyTheme_idemp.
      apply ThemeManagerProps.updateThemeUI_document_idemp.
    + apply insert_insert_eq.
  - rewrite switchTheme_unfold. by rewrite Hok.
Qed.

(** *** The store *)

Lemma store_switchTheme (store : gmap string string) (theme : string) (s : State) :
  (localStorage s = store
   ∨ localStorage s = <["preferred-theme" := currentTheme s]> store) →
  let s' := switchTheme theme s in
  localStorage s' = store
  ∨ localStorage s' = <["preferred-theme" := currentTheme s']> store.
Proof.
  intros Hs s'. unfold s'. rewrite switchTheme_unfold.
  destruct (property_truthy (themes_get theme)); [|exact Hs].
  cbn [currentTheme localStorage]. right.
  destruct Hs as [-> | ->]; [done|]. apply insert_insert_eq.
Qed.

(** X5: the manager writes nothing to [localStorage] but the key
    [preferred-theme], and only through [switchTheme].  Construction never
    persists: it leaves the store as it found it, so a first visit that
    follows the system scheme leaves no preference behind.  Every event
    either leaves the whole state as it was or is one [switchTheme] that
    passes the guard, which stores its argument under that key and makes it
    the current theme.  Hence after construction and any events the store
    is either untouched or the initial store with the current theme under
    that key. *)
Theorem store_only_preference (w : Window) (d : Document)
    (store : gmap string string) (evs : list event) :
  localStorage (construct w d store) = store
  ∧ (∀ (ev : event) (s : State),
       handle w ev s = s
       ∨ ∃ theme,
           property_truthy (themes_get theme) = true
           ∧ handle w ev s = switchTheme theme s
           ∧ currentTheme (handle w ev s) = theme
           ∧ localStorage (handle w ev s)
             = <["preferred-theme" := theme]> (localStorage s))
  ∧ (let s := run w evs (construct w d store) in
     localStorage s = store
     ∨ localStorage s = <["preferred-theme" := currentTheme s]> store).
Proof.
  assert (localStorage (construct w d store) = store) as H0.
  { destruct (construct_unfold w d store) as (t & -> & _). done. }
  assert (∀ theme s,
            switchTheme theme s = s
            ∨ ∃ theme',
                property_truthy (themes_get theme') = true
                ∧ switchTheme theme s = switchTheme theme' s
                ∧ currentTheme (switchTheme theme s) = theme'
                ∧ localStorage (switchTheme theme s)
                  = <["preferred-theme" := theme']> (localStorage s)) as Hsw.
  { intros theme s. destruct (property_truthy (themes_get theme)) eqn:Hok.
    - right. exists theme. rewrite switchTheme_unfold, Hok. done.
    - left. rewrite switchTheme_unfold, Hok. done. }
  split; [exact H0|]. split.
  - intros ev s. destruct ev as [i | m]; cbn [handle].
    + destruct (theme_options (document s) !! i); [|by left]. apply Hsw.
    + destruct (matchMedia w); [|by left]. unfold onSystemThemeChange.
      destruct (negb (truthy (getItem "preferred-theme" s))); [|by left].
      apply Hsw.
  - intros s. unfold s.
    generalize (construct w d store)
      (or_introl (B := localStorage (construct w d store)
         = <["preferred-theme" := currentTheme (construct w d store)]> store) H0).
    clear H0 Hsw s. induction evs as [|ev evs IH]; intros s0 Hs; [exact Hs|].
    cbn. apply IH. destruct ev as [i | m]; cbn.
    + destruct (theme_options (document s0) !! i); [|exact Hs].
      by apply store_switchTheme.
    + destruct (matchMedia w); [|exact Hs]. unfold onSystemThemeChange.
      destruct (negb (truthy (getItem "preferred-theme" s0))); [|exact Hs].
      by apply store_switchTheme.
Qed.

(** *** The closed set of variants *)

Lemma accepted_plain_supported (t : string) :
  property_truthy (themes_get t) = true → t ∉ Object_prototype → t ∈ supported.
Proof.
  unfold themes_get. intros Hok Hp.
  destruct (themes !! t) as [data|] eqn:Ht.
  - apply ThemeManagerProps.themes_keys. by rewrite Ht.
  - by rewrite bool_decide_eq_false_2 in Hok.
Qed.

Lemma systemTheme_supported (w : Window) : systemTheme w ∈ supported.
Proof.
  unfold systemTheme. apply ThemeManagerProps.supported_cases.
  destruct (default false _); tauto.
Qed.

Lemma theme_options_applyTheme (theme : string) (d : Document) :
  theme_options (applyTheme theme d) = theme_options d.
Proof.
  destruct d as [attrs href src btn opts foc].
  unfold applyTheme, updateHeroSvg, updateCodeTheme, setRootAttribute. cbn.
  by destruct href, src.
Qed.

Lemma theme_options_focusThemeButton (d : Document) :
  theme_options (focusThemeButton d) = theme_options d.
Proof. by destruct d as [attrs href src [b|] opts foc]. Qed.

Lemma datasets_updateThemeUI_document (current : string) (d : Document) :
  map dataset_theme (theme_options (updateThemeUI_document current d))
  = map dataset_theme (theme_options d).
Proof.
  unfold updateThemeUI_document. cbn [theme_options].
  rewrite map_map. by apply map_ext.
Qed.

Lemma theme_options_switchTheme (theme : string) (s : State) :
  map dataset_theme (theme_options (document (switchTheme theme s)))
  = map dataset_theme (theme_options (document s)).
Proof.
  rewrite switchTheme_unfold.
  destruct (property_truthy (themes_get theme)); [|done].
  cbn [document]. rewrite theme_options_focusThemeButton.
  rewrite datasets_updateThemeUI_document. by rewrite theme_options_applyTheme.
Qed.

Lemma plain_options_datasets (d d' : Document) :
  map dataset_theme (theme_options d') = map dataset_theme (theme_options d) →
  plain_options d → plain_options d'.
Proof.
  unfold plain_options. intros Heq Hd.
  apply (Forall_map dataset_theme (λ v, ∀ t, v = Some t → t ∉ Object_prototype)).
  rewrite Heq. by apply Forall_map.
Qed.

Lemma closed_switchTheme (theme : string) (s : State) :
  (theme ∉ Object_prototype) →
  currentTheme s ∈ supported → currentTheme (switchTheme theme s) ∈ supported.
Proof.
  intros Hp Hs. rewrite switchTheme_unfold.
  destruct (property_truthy (themes_get theme)) eqn:Hok; [|exact Hs].
  by apply accepted_plain_supported.
Qed.

Lemma closed_handle (w : Window) (ev : event) (s : State) :
  plain_options (document s) → currentTheme s ∈ supported →
  plain_options (document (handle w ev s)) ∧ currentTheme (handle w ev s) ∈ supported.
Proof.
  intros Hplain Hs. destruct ev as [i | m]; cbn.
  - destruct (theme_options (document s) !! i) as [o|] eqn:Ho; [|done].
    unfold onOptionClick. split.
    + eapply plain_options_datasets; [apply theme_options_switchTheme|done].
    + apply closed_switchTheme; [|done].
      destruct (dataset_theme o) as [t|] eqn:Ht; cbn.
      * unfold plain_options in Hplain. rewrite Forall_forall in Hplain.
        apply (Hplain o); [|done]. by eapply list_elem_of_lookup_2.
      * unfold Object_prototype. rewrite !elem_of_cons, elem_of_nil.
        intros H. repeat destruct H as [H | H]; discriminate || done.
  - destruct (matchMedia w); [|done]. unfold onSystemThemeChange.
    destruct (negb (truthy (getItem "preferred-theme" s))); [|done]. split.
    + eapply plain_options_datasets; [apply theme_options_switchTheme|done].
    + apply closed_switchTheme; [|done].
      unfold Object_prototype. rewrite !elem_of_cons, elem_of_nil.
      intros H. destruct m; repeat destruct H as [H | H]; discriminate || done.
Qed.

(** X6: when neither a [data-theme] of the page nor the stored preference
    names a member of [Object.prototype], the current theme is one of light,
    dark and high-contrast from construction on, whatever is clicked and
    however the system scheme changes. *)
Theorem currentTheme_stays_supported (w : Window) (d : Document)
    (store : gmap string string) (evs : list event) :
  plain_options d →
  (∀ t, store !! "preferred-theme" = Some t → t ∉ Object_prototype) →
  currentTheme (run w evs (construct w d store)) ∈ supported.
Proof.
  intros Hplain Hstore.
  assert (plain_options (document (construct w d store))
          ∧ currentTheme (construct w d store) ∈ supported) as H0.
  { destruct (construct_unfold w d store) as (t & -> & Hok & Ht).
    cbn [document currentTheme]. split.
    - eapply plain_options_datasets; [|exact Hplain].
      rewrite datasets_updateThemeUI_document. by rewrite theme_options_applyTheme.
    - destruct Ht as [-> | Ht]; [apply systemTheme_supported|].
      apply accepted_plain_supported; [done|]. by apply Hstore. }
  generalize (construct w d store) H0. clear H0.
  induction evs as [|ev evs IH]; intros s [Hp Hs]; [exact Hs|].
  cbn. apply IH. by apply closed_handle.
Qed.

Lemma currentTheme_stays_supported_witness :
  plain_options Examples.page
  ∧ currentTheme
      (run Examples.dark_system [OptionClick 2; SystemChange false; OptionClick 7]
         (construct Examples.dark_system Examples.page ∅)) ∈ supported.
Proof.
  assert (plain_options Examples.page) as Hplain.
  { unfold plain_options, Examples.page. cbn.
    repeat (apply Forall_cons; split;
            [intros t [= <-]; unfold Object_prototype;
             rewrite !elem_of_cons, elem_of_nil; intros H;
             repeat destruct H as [H | H]; discriminate || done|]).
    apply Forall_nil_2. }
  split; [exact Hplain|].
  apply (currentTheme_stays_supported Examples.dark_system Examples.page ∅
           [OptionClick 2; SystemChange false; OptionClick 7] Hplain).
  intros t Ht. by rewrite lookup_empty in Ht.
Defined.

End ThemeEventsProps.

(* ================================================================== *)
(** ** The breakpoint engine over many notifications: properties *)
(* ================================================================== *)

Module BreakpointLayoutProps.

Import JS DynamicNavbarBreakpoint BreakpointLayout.
Import NumberProps DynamicNavbarBreakpointProps.

(** *** Class lists *)

Lemma classList_remove_add (tok : string) (cl : list string) :
  classList_remove tok (classList_add tok cl) = classList_remove tok cl.
Proof.
  unfold classList_add, classList_remove. destruct (classList_contains tok cl); [done|].
  rewrite filter_app. rewrite filter_cons, decide_False by (by intros []).
  rewrite filter_nil. apply app_nil_r.
Qed.

Lemma elem_of_classList_add (tok tok' : string) (cl : list string) :
  tok' ∈ classList_add tok cl ↔ tok' = tok ∨ tok' ∈ cl.
Proof.
  unfold classList_add, classList_contains. case_bool_decide as Hin.
  - split; [by right|]. by intros [-> | ?].
  - rewrite elem_of_app, list_elem_of_singleton. tauto.
Qed.

Lemma elem_of_classList_remove (tok tok' : string) (cl : list string) :
  tok' ∈ classList_remove tok cl ↔ tok' ≠ tok ∧ tok' ∈ cl.
Proof. unfold classList_remove. by rewrite list_elem_of_filter. Qed.

(** *** One delivery to a complete engine *)

Lemma deliver_complete (nb : Navbar) (c b n t : element) (ev : notification)
    (w : World) :
  deliver nb (complete c b n t) ev w = Some w
  ∨ deliver nb (complete c b n t) ev w = Some (after_check nb c b n t w)
  ∨ deliver nb (complete c b n t) ev w
    = Some (after_check nb c b n t (clear_timeout w)).
Proof.
  destruct ev as [target|]; unfold deliver, complete.
  - case_bool_decide; [|by left]. right; left.
    by rewrite checkBreakpoint_run.
  - destruct (timeouts w); [by left|]. right; right.
    by rewrite checkBreakpoint_run.
Qed.

Lemma run_complete (nb : Navbar) (c b n t : element) (ns : list notification)
    (w : World) :
  is_Some (run nb (complete c b n t) ns w).
Proof.
  revert w. induction ns as [|ev ns IH]; intros w; [by eexists|].
  cbn. destruct (deliver_complete nb c b n t ev w) as [-> | [-> | ->]]; apply IH.
Qed.

(** X7: the guard of [init] is enough.  For an engine constructed on any
    navbar, on a page without earlier observers and timers, no sequence of
    resize notifications and timer ticks makes [checkBreakpoint] read a
    property of [null]: every run comes to its end, whether all four
    elements were found or not. *)
Theorem run_never_throws (nb : Navbar) (ns : list notification) (w : World) :
  observed w = [] → timeouts w = [] →
  is_Some (run nb (construct nb) ns (init (construct nb) w)).
Proof.
  intros Ho Ht.
  destruct (is_null (container (construct nb)) || is_null (brand (construct nb))
            || is_null (navbarNav (construct nb))
            || is_null (themeSelector (construct nb))) eqn:E.
  - rewrite (init_missing _ w E), run_disabled; [by eexists|done..].
  - destruct (construct nb) as [[c|] [b|] [n|] [t|]]; try discriminate E.
    apply (run_complete nb c b n t).
Qed.

Lemma run_never_throws_witness :
  observed (fresh ["navbar"]) = []
  ∧ is_Some (run (NavbarExamples.measured 560 "8px")
               (construct (NavbarExamples.measured 560 "8px"))
               [TimerTick; Resize NavbarExamples.nav_el]
               (init (construct (NavbarExamples.measured 560 "8px"))
                     (fresh ["navbar"]))).
Proof.
  split; [reflexivity|].
  exact (run_never_throws (NavbarExamples.measured 560 "8px")
           [TimerTick; Resize NavbarExamples.nav_el] (fresh ["navbar"])
           eq_refl eq_refl).
Defined.

Lemma other_classes_after_check (nb : Navbar) (c b n t : element) (w : World) :
  classList_remove "navbar-expand-lg" (navbar_classList (after_check nb c b n t w))
  = classList_remove "navbar-expand-lg" (navbar_classList w).
Proof.
  unfold after_check, baseline. cbn [navbar_classList].
  destruct (collapses nb c b n t w).
  - rewrite ThemeManagerProps.classList_remove_idemp. apply classList_remove_add.
  - by rewrite !classList_remove_add.
Qed.

(** X8: the engine touches one class only.  Over any sequence of
    notifications the other classes of the navbar stay as they were, in
    their order, and nothing is written to the console. *)
Theorem run_keeps_other_classes (nb : Navbar) (c b n t : element)
    (ns : list notification) (w : World) :
  ∃ w', run nb (complete c b n t) ns w = Some w'
    ∧ classList_remove "navbar-expand-lg" (navbar_classList w')
      = classList_remove "navbar-expand-lg" (navbar_classList w)
    ∧ console w' = console w
    ∧ observed w' = observed w.
Proof.
  revert w. induction ns as [|ev ns IH]; intros w; [by exists w|].
  cbn. destruct (deliver_complete nb c b n t ev w) as [-> | [-> | ->]]; cbn.
  - apply IH.
  - destruct (IH (after_check nb c b n t w)) as (w' & -> & Hc & Hl & Ho).
    exists w'. split; [done|]. rewrite Hc, Hl, Ho.
    by rewrite other_classes_after_check.
  - destruct (IH (after_check nb c b n t (clear_timeout w)))
      as (w' & -> & Hc & Hl & Ho).
    exists w'. split; [done|]. rewrite Hc, Hl, Ho.
    by rewrite other_classes_after_check.
Qed.

(** *** A layout that depends on the classes only *)

Lemma same_classes_baseline (w1 w2 : World) :
  classList_remove "navbar-expand-lg" (navbar_classList w1)
  = classList_remove "navbar-expand-lg" (navbar_classList w2) →
  same_classes (baseline w1) (baseline w2).
Proof.
  intros Heq tok. unfold baseline. rewrite !elem_of_classList_add.
  destruct (decide (tok = "navbar-expand-lg")) as [-> | Hne]; [tauto|].
  assert (tok ∈ navbar_classList w1 ↔ tok ∈ navbar_classList w2) as Hiff.
  { transitivity (tok ∈ classList_remove "navbar-expand-lg" (navbar_classList w1)).
    - rewrite elem_of_classList_remove. tauto.
    - rewrite Heq, elem_of_classList_remove. tauto. }
  tauto.
Qed.

Lemma collapses_same_classes (nb : Navbar) (c b n t : element) (w1 w2 : World) :
  layout_by_classes nb →
  same_classes (baseline w1) (baseline w2) →
  collapses nb c b n t w1 = collapses nb c b n t w2.
Proof.
  intros Hl Hs. unfold collapses, measured_requiredWidth, measured_gapStyle.
  destruct (Hl _ _ b Hs) as (-> & _ & _).
  destruct (Hl _ _ n Hs) as (-> & _ & _).
  destruct (Hl _ _ t Hs) as (-> & _ & _).
  destruct (Hl _ _ c Hs) as (_ & -> & _).
  destruct (querySelector nb ".navbar-collapse") as [e|]; [|done].
  by destruct (Hl _ _ e Hs) as (_ & _ & ->).
Qed.

(** X9: no flicker under a steady layout.  When the rendered widths depend
    only on which classes the navbar carries, then once one check has run,
    every further resize notification or timer tick ends in the same
    expanded or collapsed state. *)
Theorem run_steady (nb : Navbar) (c b n t : element) (ns : list notification)
    (w : World) :
  layout_by_classes nb →
  ∃ w', run nb (complete c b n t) ns (after_check nb c b n t w) = Some w'
    ∧ expanded w' = expanded (after_check nb c b n t w).
Proof.
  intros Hl.
  assert (∀ w0,
    classList_remove "navbar-expand-lg" (navbar_classList w0)
    = classList_remove "navbar-expand-lg" (navbar_classList w) →
    expanded (after_check nb c b n t w0) = expanded (after_check nb c b n t w)
    ∧ classList_remove "navbar-expand-lg" (navbar_classList (after_check nb c b n t w0))
      = classList_remove "navbar-expand-lg" (navbar_classList w)) as Hstep.
  { intros w0 H0. split.
    - rewrite !expanded_after_check. f_equal.
      by apply collapses_same_classes, same_classes_baseline.
    - by rewrite other_classes_after_check. }
  assert (∀ w0,
    classList_remove "navbar-expand-lg" (navbar_classList w0)
    = classList_remove "navbar-expand-lg" (navbar_classList w) →
    expanded w0 = expanded (after_check nb c b n t w) →
    ∃ w', run nb (complete c b n t) ns w0 = Some w'
      ∧ expanded w' = expanded (after_check nb c b n t w)) as Hrun.
  { induction ns as [|ev ns IH]; intros w0 Hc He; [by exists w0|].
    cbn. destruct (deliver_complete nb c b n t ev w0) as [-> | [-> | ->]]; cbn.
    - by apply IH.
    - destruct (Hstep w0 Hc). by apply IH.
    - destruct (Hstep (clear_timeout w0) Hc). by apply IH. }
  apply Hrun; [apply other_classes_after_check|done].
Qed.

Lemma measured_by_classes (containerWidth : Z) (gap : string) :
  layout_by_classes (NavbarExamples.measured containerWidth gap).
Proof.
  intros cl1 cl2 e Hs. cbn. repeat split.
  assert (classList_contains "navbar-expand-lg" cl1
          = classList_contains "navbar-expand-lg" cl2) as ->; [|done].
  unfold classList_contains. apply bool_decide_ext, Hs.
Qed.

Lemma run_steady_witness :
  layout_by_classes (NavbarExamples.measured 560 "8px")
  ∧ ∃ w', run (NavbarExamples.measured 560 "8px")
            (complete NavbarExamples.container_el NavbarExamples.brand_el
               NavbarExamples.nav_el NavbarExamples.theme_el)
            [Resize NavbarExamples.container_el; Resize NavbarExamples.nav_el]
            (after_check (NavbarExamples.measured 560 "8px")
               NavbarExamples.container_el NavbarExamples.brand_el
               NavbarExamples.nav_el NavbarExamples.theme_el
               (init (complete NavbarExamples.container_el NavbarExamples.brand_el
                        NavbarExamples.nav_el NavbarExamples.theme_el)
                     (fresh ["navbar"; "navbar-expand-lg"])))
          = Some w'
      ∧ expanded w' = false.
Proof.
  split; [apply measured_by_classes|].
  destruct (run_steady (NavbarExamples.measured 560 "8px")
              NavbarExamples.container_el NavbarExamples.brand_el
              NavbarExamples.nav_el NavbarExamples.theme_el
              [Resize NavbarExamples.container_el; Resize NavbarExamples.nav_el]
              (init (complete NavbarExamples.container_el NavbarExamples.brand_el
                       NavbarExamples.nav_el NavbarExamples.theme_el)
                    (fresh ["navbar"; "navbar-expand-lg"]))
              (measured_by_classes 560 "8px")) as (w' & Hrun & He).
  exists w'. split; [exact Hrun|]. rewrite He. reflexivity.
Defined.

(** *** A wider container *)

Lemma gt_wider (x : number) (a a' : Z) :
  (a ≤ a')%Z → gt x (of_long a) = false → gt x (of_long a') = false.
Proof.
  intros Ha Hx. destruct (gt x (of_long a')) eqn:E; [|done].
  pose proof (lt_le_trans _ _ x (of_long_mono a a' Ha) E) as Hlt.
  unfold gt in Hx. unfold lt in Hlt. congruence.
Qed.

(** X10: room never hurts.  With the same element widths and gap, a navbar
    that a check leaves expanded is also left expanded when the container is
    wider. *)
Theorem wider_container_stays_expanded (nb : Navbar) (c b n t : element)
    (w : World) (f : list string → element → Z) :
  (∀ cl, clientWidth nb cl c ≤ f cl c)%Z →
  expanded (after_check nb c b n t w) = true →
  expanded (after_check (with_clientWidth f nb) c b n t w) = true.
Proof.
  intros Hf. rewrite !expanded_after_check, !negb_true_iff.
  unfold collapses. apply gt_wider, Hf.
Qed.

Lemma wider_container_stays_expanded_witness :
  let nb := NavbarExamples.measured 571 "8px" in
  let w := fresh ["navbar"] in
  (∀ cl, clientWidth nb cl NavbarExamples.container_el ≤ 1200)%Z
  ∧ expanded (after_check nb NavbarExamples.container_el NavbarExamples.brand_el
                NavbarExamples.nav_el NavbarExamples.theme_el w) = true
  ∧ expanded (after_check (with_clientWidth (λ _ _, 1200%Z) nb)
                NavbarExamples.container_el NavbarExamples.brand_el
                NavbarExamples.nav_el NavbarExamples.theme_el w) = true.
Proof.
  intros nb w.
  assert (∀ cl, clientWidth nb cl NavbarExamples.container_el ≤ 1200)%Z as H1
    by (intros cl; cbn; lia).
  assert (expanded (after_check nb NavbarExamples.container_el
                      NavbarExamples.brand_el NavbarExamples.nav_el
                      NavbarExamples.theme_el w) = true) as H2
    by (vm_compute; reflexivity).
  split; [exact H1|]. split; [exact H2|].
  exact (wider_container_stays_expanded nb NavbarExamples.container_el
           NavbarExamples.brand_el NavbarExamples.nav_el NavbarExamples.theme_el
           w (λ _ _, 1200%Z) H1 H2).
Defined.

(** *** Which resizes count *)

(** X11: after [init] on a page without earlier observers, only the
    container and the nav links are observed: a resize notification for any
    other element (the brand or the theme control, say) changes nothing, no
    check runs. *)
Theorem resize_of_unobserved_ignored (nb : Navbar) (c b n t target : element)
    (w : World) :
  observed w = [] → target ≠ c → target ≠ n →
  observed (init (complete c b n t) w) = [c; n]
  ∧ deliver nb (complete c b n t) (Resize target) (init (complete c b n t) w)
    = Some (init (complete c b n t) w).
Proof.
  intros Ho Hc Hn.
  assert (observed (init (complete c b n t) w) = [c; n]) as Hobs
    by (cbn; by rewrite Ho).
  split; [exact Hobs|]. unfold deliver. rewrite Hobs.
  rewrite bool_decide_eq_false_2; [done|].
  rewrite !elem_of_cons, elem_of_nil. tauto.
Qed.

Lemma resize_of_unobserved_ignored_witness :
  let nb := NavbarExamples.measured 560 "8px" in
  let this := complete NavbarExamples.container_el NavbarExamples.brand_el
                NavbarExamples.nav_el NavbarExamples.theme_el in
  observed (fresh ["navbar"]) = []
  ∧ NavbarExamples.brand_el ≠ NavbarExamples.container_el
  ∧ NavbarExamples.brand_el ≠ NavbarExamples.nav_el
  ∧ deliver nb this (Resize NavbarExamples.brand_el) (init this (fresh ["navbar"]))
    = Some (init this (fresh ["navbar"])).
Proof.
  intros nb this.
  assert (NavbarExamples.brand_el ≠ NavbarExamples.container_el) as H1 by done.
  assert (NavbarExamples.brand_el ≠ NavbarExamples.nav_el) as H2 by done.
  split; [reflexivity|]. split; [exact H1|]. split; [exact H2|].
  exact (proj2 (resize_of_unobserved_ignored nb NavbarExamples.container_el
                  NavbarExamples.brand_el NavbarExamples.nav_el
                  NavbarExamples.theme_el NavbarExamples.brand_el
                  (fresh ["navbar"]) eq_refl H1 H2)).
Defined.

(** X12: the delayed first check happens once.  After [init] on a page
    without earlier timers, the first timer tick runs a check and clears the
    timer; any number of further ticks changes nothing. *)
Theorem initial_check_runs_once (nb : Navbar) (c b n t : element) (w : World)
    (k : nat) :
  timeouts w = [] →
  let w0 := init (complete c b n t) w in
  let w1 := after_check nb c b n t (clear_timeout w0) in
  timeouts w0 = [150%Z]
  ∧ deliver nb (complete c b n t) TimerTick w0 = Some w1
  ∧ timeouts w1 = []
  ∧ run nb (complete c b n t) (replicate k TimerTick) w1 = Some w1.
Proof.
  intros Ht w0 w1.
  assert (timeouts w0 = [150%Z]) as H0 by (unfold w0; cbn; by rewrite Ht).
  assert (timeouts w1 = []) as H1
    by (unfold w1, after_check, clear_timeout; cbn [timeouts]; by rewrite H0).
  split; [exact H0|]. split.
  - unfold deliver. rewrite H0. unfold complete. by rewrite checkBreakpoint_run.
  - split; [exact H1|].
    induction k as [|k IH]; [done|].
    cbn [replicate run]. unfold deliver at 1. rewrite H1. exact IH.
Qed.

Lemma initial_check_runs_once_witness :
  let nb := NavbarExamples.measured 560 "8px" in
  let this := complete NavbarExamples.container_el NavbarExamples.brand_el
                NavbarExamples.nav_el NavbarExamples.theme_el in
  timeouts (fresh ["navbar"]) = []
  ∧ (expanded <$> run nb this [TimerTick; TimerTick; TimerTick]
                    (init this (fresh ["navbar"]))) = Some false.
Proof.
  intros nb this. split; [reflexivity|].
  pose proof (initial_check_runs_once nb NavbarExamples.container_el
                NavbarExamples.brand_el NavbarExamples.nav_el
                NavbarExamples.theme_el (fresh ["navbar"]) 2 eq_refl)
    as (_ & Hd & _ & Hr).
  change [TimerTick; TimerTick; TimerTick]
    with (TimerTick :: replicate 2 TimerTick).
  cbn [run]. unfold this. rewrite Hd. cbn [mbind option_bind].
  rewrite Hr. reflexivity.
Defined.

(** *** Gaps in whole pixels *)

Lemma digit_cases (d : Z) :
  (0 ≤ d ≤ 9)%Z →
  d = 0%Z ∨ d = 1%Z ∨ d = 2%Z ∨ d = 3%Z ∨ d = 4%Z ∨ d = 5%Z ∨ d = 6%Z
  ∨ d = 7%Z ∨ d = 8%Z ∨ d = 9%Z.
Proof. lia. Qed.

Lemma digit_of_digit_char (d : Z) :
  (0 ≤ d ≤ 9)%Z → digit_of (digit_char d) = Some d.
Proof.
  intros Hd. destruct (digit_cases d Hd) as [-> | [-> | [-> | [-> | [-> | [-> |
    [-> | [-> | [-> | ->]]]]]]]]]; reflexivity.
Qed.

Lemma take_digits_px (ds : list Z) :
  Forall (λ d, 0 ≤ d ≤ 9)%Z ds → take_digits (px ds) = (ds, "px").
Proof.
  induction 1 as [|d ds Hd _ IH]; [reflexivity|].
  change (px (d :: ds)) with (String (digit_char d) (px ds)).
  cbn [take_digits].
  rewrite (digit_of_digit_char d Hd). by rewrite IH.
Qed.

Lemma digits_value_nonneg (ds : list Z) :
  Forall (λ d, 0 ≤ d ≤ 9)%Z ds → (0 ≤ digits_value ds)%Z.
Proof.
  intros Hds. unfold digits_value.
  assert (∀ acc, 0 ≤ acc → 0 ≤ fold_left (λ acc d, 10 * acc + d) ds acc)%Z as H.
  { induction Hds as [|d ds Hd _ IH]; intros acc Hacc; [done|].
    cbn [fold_left]. apply IH. lia. }
  by apply H.
Qed.

(** Decimal digits followed by [px] parse to the number nearest to their
    value. *)
Lemma parseFloat_px (ds : list Z) :
  ds ≠ [] → Forall (λ d, 0 ≤ d ≤ 9)%Z ds →
  parseFloat (px ds) = of_Z (digits_value ds).
Proof.
  intros Hne Hds.
  pose proof (take_digits_px ds Hds) as Htake.
  pose proof (digits_value_nonneg ds Hds) as Hv.
  destruct ds as [|d ds]; [done|].
  apply Forall_cons in Hds as [Hd Hds].
  unfold parseFloat.
  assert (trim_start (px (d :: ds)) = px (d :: ds)) as ->.
  { change (px (d :: ds)) with (String (digit_char d) (px ds)).
    destruct (digit_cases d Hd) as [-> | [-> | [-> | [-> | [-> | [-> |
      [-> | [-> | [-> | ->]]]]]]]]]; reflexivity. }
  assert (match px (d :: ds) with
          | String "-" r => (true, r)
          | String "+" r => (false, r)
          | _ => (false, px (d :: ds))
          end = (false, px (d :: ds))) as ->.
  { destruct (digit_cases d Hd) as [-> | [-> | [-> | [-> | [-> | [-> |
      [-> | [-> | [-> | ->]]]]]]]]]; reflexivity. }
  assert (strip_prefix "Infinity" (px (d :: ds)) = None) as ->.
  { destruct (digit_cases d Hd) as [-> | [-> | [-> | [-> | [-> | [-> |
      [-> | [-> | [-> | ->]]]]]]]]]; reflexivity. }
  rewrite Htake. cbn [app length exponent_part bool_decide].
  rewrite app_nil_r.
  rewrite bool_decide_eq_false_2 by (intros [H | H]; discriminate H).
  change (0 - Z.of_nat 0)%Z with 0%Z.
  destruct (digits_value (d :: ds)) as [|m|m]; [reflexivity| |lia].
  unfold of_decimal, of_Z. cbn [cond_Zopp]. f_equal. lia.
Qed.

(** X13: a computed gap of a whole number of pixels (decimal digits followed
    by [px]) is read as the number nearest to it, which below 2^53 is that
    very integer: the order of such gaps is the order of the integers, and a
    gap other than zero is used as it is, while a gap of zero pixels is
    replaced by 8. *)
Theorem gapWidth_of_px (ds ds' : list Z) :
  ds ≠ [] → Forall (λ d, 0 ≤ d ≤ 9)%Z ds → (digits_value ds < 2 ^ 53)%Z →
  ds' ≠ [] → Forall (λ d, 0 ≤ d ≤ 9)%Z ds' → (digits_value ds' < 2 ^ 53)%Z →
  parseFloat (px ds) = of_Z (digits_value ds)
  ∧ gapWidth_of (px ds)
    = (if decide (digits_value ds = 0%Z) then of_Z 8 else of_Z (digits_value ds))
  ∧ le (parseFloat (px ds)) (parseFloat (px ds'))
    = (digits_value ds <=? digits_value ds')%Z.
Proof.
  intros Hne Hds Hb Hne' Hds' Hb'.
  pose proof (digits_value_nonneg ds Hds) as Hv.
  pose proof (digits_value_nonneg ds' Hds') as Hv'.
  rewrite (parseFloat_px ds' Hne' Hds').
  unfold gapWidth_of, number_or.
  rewrite (parseFloat_px ds Hne Hds), number_truthy_of_Z by lia.
  split; [done|]. split.
  - destruct (decide (digits_value ds = 0%Z)) as [-> | Hnz]; [done|].
    by rewrite (proj2 (Z.eqb_neq _ _) Hnz).
  - apply le_of_Z; lia.
Qed.

Lemma gapWidth_of_px_witness :
  [1; 6]%Z ≠ []
  ∧ Forall (λ d, 0 ≤ d ≤ 9)%Z [1; 6]%Z
  ∧ (digits_value [1; 6] < 2 ^ 53)%Z
  ∧ px [1; 6]%Z = "16px"
  ∧ gapWidth_of "16px" = of_Z 16
  ∧ le (parseFloat "16px") (parseFloat "8px") = false.
Proof.
  assert ([1; 6]%Z ≠ []) as H1 by done.
  assert (Forall (λ d, 0 ≤ d ≤ 9)%Z [1; 6]%Z) as H2
    by (repeat constructor; lia).
  assert (digits_value [1; 6] < 2 ^ 53)%Z as H3 by (vm_compute; reflexivity).
  assert ([8]%Z ≠ []) as H4 by done.
  assert (Forall (λ d, 0 ≤ d ≤ 9)%Z [8]%Z) as H5
    by (repeat constructor; lia).
  assert (digits_value [8] < 2 ^ 53)%Z as H6 by (vm_compute; reflexivity).
  split; [exact H1|]. split; [exact H2|]. split; [exact H3|].
  split; [reflexivity|].
  exact (proj2 (gapWidth_of_px [1; 6]%Z [8]%Z H1 H2 H3 H4 H5 H6)).
Defined.

End BreakpointLayoutProps.

(* ================================================================== *)
(** ** Properties of the scroll-to-top button *)
(* ================================================================== *)

Module ScrollToTopButtonProps.

Import JS ScrollToTopButton NumberProps.

Lemma Qlt_bool_iff (x y : Q) : Qlt_bool x y = true ↔ (x < y)%Q.
Proof.
  unfold Qlt_bool. rewrite negb_true_iff. split.
  - intros H. apply Qnot_le_lt. intros Hle. apply Qle_bool_iff in Hle. congruence.
  - intros H. destruct (Qle_bool y x) eqn:E; [|done].
    apply Qle_bool_iff in E. by apply Qle_not_lt in E.
Qed.

(** X14: on a page whose footer starts at a whole number of pixels, after
    every scroll the button sits at least 20px above the bottom of the
    window and at least 20px above the top of the footer, and touches one of
    the two limits: its bottom edge is 20px above whichever of the window
    bottom and the footer top is higher.  (The subtraction and the addition
    of line 154 are exact on such values.) *)
Theorem handleScroll_clears_footer (v : Viewport) (button : Button) (top : Z) :
  footerRect_top v = Some (of_Z top) →
  (-2147483648 ≤ top ≤ 2147483647)%Z →
  (0 ≤ innerHeight v ≤ 2147483647)%Z →
  ∃ bottom : Z,
    style_bottom (handleScroll v button) = Some (of_Z bottom)
    ∧ (20 ≤ bottom)%Z
    ∧ (innerHeight v - bottom ≤ top - 20)%Z
    ∧ (bottom = 20 ∨ innerHeight v - bottom = top - 20)%Z.
Proof.
  intros Hf Ht Hh. unfold handleScroll. rewrite Hf.
  rewrite of_long_of_Z by lia.
  assert (lt (of_Z top) (of_Z (innerHeight v)) = (top <? innerHeight v)%Z) as ->.
  { unfold lt, SFltb. rewrite compare_of_Z by lia.
    unfold Z.ltb. by destruct (top ?= innerHeight v)%Z. }
  destruct (Z.ltb_spec top (innerHeight v)) as [Hlt | Hge]; cbn [style_bottom].
  - exists (innerHeight v - top + 20)%Z.
    rewrite sub_of_Z, add_of_Z by lia. split; [done|]. lia.
  - exists 20%Z. split; [done|]. lia.
Qed.

Lemma handleScroll_clears_footer_witness :
  let v := {| scrollY := 900; innerHeight := 800;
              footerRect_top := Some (of_Z 650) |} in
  footerRect_top v = Some (of_Z 650)
  ∧ (-2147483648 ≤ 650 ≤ 2147483647)%Z
  ∧ (0 ≤ innerHeight v ≤ 2147483647)%Z
  ∧ ∃ bottom : Z,
      style_bottom (handleScroll v {| classList := ["btn"]; style_bottom := None |})
      = Some (of_Z bottom)
      ∧ (800 - bottom ≤ 650 - 20)%Z.
Proof.
  intros v.
  assert (-2147483648 ≤ 650 ≤ 2147483647)%Z as H1 by lia.
  assert (0 ≤ innerHeight v ≤ 2147483647)%Z as H2 by (cbn; lia).
  split; [reflexivity|]. split; [exact H1|]. split; [exact H2|].
  destruct (handleScroll_clears_footer v
              {| classList := ["btn"]; style_bottom := None |} 650%Z eq_refl H1 H2)
    as (bottom & Hb & _ & H3 & _).
  exists bottom. split; [exact Hb | exact H3].
Defined.

(** X15: after every scroll the button carries the class [show] exactly when
    the page is scrolled by more than 300px (at 300 it is hidden); its other
    classes stay as they were, and on a page without a footer its inline
    [bottom] is never written. *)
Theorem handleScroll_shows_past_300 (v : Viewport) (button : Button) :
  (classList_contains "show" (classList (handleScroll v button)) = true
   ↔ (300 < scrollY v)%Q)
  ∧ classList_remove "show" (classList (handleScroll v button))
    = classList_remove "show" (classList button)
  ∧ (footerRect_top v = None →
     style_bottom (handleScroll v button) = style_bottom button).
Proof.
  assert (classList (handleScroll v button)
          = classList_toggle "show" (Qlt_bool 300 (scrollY v)) (classList button))
    as Hcl.
  { unfold handleScroll. destruct (footerRect_top v) as [top|]; [|done].
    by destruct (lt top _). }
  rewrite Hcl. split; [|split].
  - rewrite ThemeEventsProps.classList_contains_toggle. apply Qlt_bool_iff.
  - destruct (Qlt_bool 300 (scrollY v)); cbn [classList_toggle].
    + apply BreakpointLayoutProps.classList_remove_add.
    + apply ThemeManagerProps.classList_remove_idemp.
  - intros Hf. unfold handleScroll. by rewrite Hf.
Qed.

Lemma handleScroll_shows_past_300_witness :
  let v := {| scrollY := 300; innerHeight := 800; footerRect_top := None |} in
  let button := {| classList := ["btn"; "show"]; style_bottom := Some (of_Z 35) |} in
  footerRect_top v = None
  ∧ style_bottom (handleScroll v button) = Some (of_Z 35)
  ∧ classList (handleScroll v button) = ["btn"].
Proof.
  intros v button. split; [reflexivity|]. split.
  - exact (proj2 (proj2 (handleScroll_shows_past_300 v button)) eq_refl).
  - reflexivity.
Defined.

End ScrollToTopButtonProps.

(* ================================================================== *)
(** ** Properties of the anchor and menu handlers *)
(* ================================================================== *)

Module NavigationProps.

Import JS Navigation.

(** X16: a click on an in-page link is taken away from the browser
    ([preventDefault]) exactly when the link is [#] or [#home] or its
    fragment names an element of the page; otherwise the handler does
    nothing at all. *)
Theorem handleAnchorClick_prevents_default (p : Page) (href : string) (s : State) :
  let r := handleAnchorClick p href s in
  (href = "#" ∨ href = "#home" ∨ getElementById p (substring_1 href) = true →
   ∃ rest, log (state_of r) = log s ++ PreventDefault :: rest)
  ∧ (href ≠ "#" → href ≠ "#home" → getElementById p (substring_1 href) = false →
     r = Done s).
Proof.
  intros r. unfold r, handleAnchorClick. split.
  - intros H.
    destruct (String.eqb href "#" || String.eqb href "#home") eqn:E.
    + exists [ScrollToTop]. cbn. by rewrite <- app_assoc.
    + apply orb_false_iff in E as [E1 E2].
      apply String.eqb_neq in E1, E2.
      destruct H as [H | [H | H]]; [done..|]. rewrite H.
      destruct (navbar p) as [nb|]; [|by exists []].
      destruct (match navbar_collapse nb with
                | Some classes => classList_contains "show" classes
                | None => false
                end).
      * by exists [].
      * exists [ScrollIntoView (substring_1 href)]. cbn. by rewrite <- app_assoc.
  - intros H1 H2 H3.
    apply String.eqb_neq in H1, H2. by rewrite H1, H2, H3.
Qed.

Lemma handleAnchorClick_prevents_default_witness :
  let p := {| navbar := Some {| navbar_collapse := None |}; ids := ["about"] |} in
  let s := {| log := []; waiting := [] |} in
  getElementById p (substring_1 "#about") = true
  ∧ (∃ rest, log (state_of (handleAnchorClick p "#about" s)) = PreventDefault :: rest)
  ∧ getElementById p (substring_1 "#team") = false
  ∧ handleAnchorClick p "#team" s = Done s.
Proof.
  intros p s.
  assert (getElementById p (substring_1 "#about") = true) as H1 by reflexivity.
  assert (getElementById p (substring_1 "#team") = false) as H2 by reflexivity.
  split; [exact H1|]. split.
  - exact (proj1 (handleAnchorClick_prevents_default p "#about" s)
             (or_intror (or_intror H1))).
  - split; [exact H2|].
    apply (proj2 (handleAnchorClick_prevents_default p "#team" s)); done.
Defined.

(** X17: on a page without a [.navbar], a click on a link to an existing
    element other than [#] and [#home] ends in a [TypeError]
    ([this.navbar] is [null]) after the default has been prevented: the
    browser does not jump and the handler does not scroll. *)
Theorem handleAnchorClick_without_navbar (p : Page) (href : string) (s : State) :
  navbar p = None → href ≠ "#" → href ≠ "#home" →
  getElementById p (substring_1 href) = true →
  handleAnchorClick p href s = TypeError (emit PreventDefault s)
  ∧ filter is_scroll (log (emit PreventDefault s)) = filter is_scroll (log s).
Proof.
  intros Hn H1 H2 Hid. unfold handleAnchorClick.
  apply String.eqb_neq in H1, H2. rewrite H1, H2, Hid, Hn. split; [done|].
  cbn. rewrite filter_app. cbn. apply app_nil_r.
Qed.

Lemma handleAnchorClick_without_navbar_witness :
  let p := {| navbar := None; ids := ["about"] |} in
  let s := {| log := []; waiting := [] |} in
  navbar p = None
  ∧ getElementById p (substring_1 "#about") = true
  ∧ handleAnchorClick p "#about" s
    = TypeError {| log := [PreventDefault]; waiting := [] |}.
Proof.
  intros p s. split; [reflexivity|]. split; [reflexivity|].
  apply (handleAnchorClick_without_navbar p "#about" s); done.
Defined.

(** X18: while the mobile menu is open, a click on a link to an existing
    element scrolls nothing yet; the scroll to that element happens at the
    next [hidden.bs.collapse], once: a later [hidden.bs.collapse] scrolls
    nothing. *)
Theorem handleAnchorClick_waits_for_menu (p : Page) (nb : Navbar)
    (classes : list string) (href : string) (s : State) :
  navbar p = Some nb → navbar_collapse nb = Some classes →
  classList_contains "show" classes = true →
  href ≠ "#" → href ≠ "#home" →
  getElementById p (substring_1 href) = true →
  waiting s = [] →
  ∃ s1,
    handleAnchorClick p href s = Done s1
    ∧ log s1 = log s ++ [PreventDefault]
    ∧ log (onHidden s1) = log s1 ++ [ScrollIntoView (substring_1 href)]
    ∧ onHidden (onHidden s1) = onHidden s1.
Proof.
  intros Hn Hc Hshow H1 H2 Hid Hw. unfold handleAnchorClick.
  apply String.eqb_neq in H1, H2. rewrite H1, H2, Hid, Hn, Hc, Hshow. cbn.
  eexists. split; [reflexivity|]. split; [reflexivity|].
  unfold onHidden. cbn. rewrite Hw. cbn. split; [done|].
  by rewrite app_nil_r.
Qed.

Lemma handleAnchorClick_waits_for_menu_witness :
  let nb := {| navbar_collapse := Some ["collapse"; "navbar-collapse"; "show"] |} in
  let p := {| navbar := Some nb; ids := ["about"; "contact"] |} in
  let s := {| log := []; waiting := [] |} in
  classList_contains "show" ["collapse"; "navbar-collapse"; "show"] = true
  ∧ getElementById p (substring_1 "#contact") = true
  ∧ ∃ s1, handleAnchorClick p "#contact" s = Done s1
          ∧ log (onHidden s1) = log s1 ++ [ScrollIntoView "contact"].
Proof.
  intros nb p s. split; [reflexivity|]. split; [reflexivity|].
  destruct (handleAnchorClick_waits_for_menu p nb
              ["collapse"; "navbar-collapse"; "show"] "#contact" s
              eq_refl eq_refl eq_refl) as (s1 & H1 & _ & H3 & _); try done.
  exists s1. split; [exact H1 | exact H3].
Defined.

(** X19: a tap on a plain nav link (or a dropdown item) of the open mobile
    menu asks Bootstrap to hide the menu and scrolls to the target once the
    menu is hidden; a tap on a dropdown toggle that is no dropdown item
    never asks to hide the menu. *)
Theorem clickInMenu_hides_then_scrolls (p : Page) (nb : Navbar)
    (classes : list string) (href : string) (target : Target) (s : State) :
  navbar p = Some nb → navbar_collapse nb = Some classes →
  classList_contains "show" classes = true →
  href ≠ "#" → href ≠ "#home" →
  getElementById p (substring_1 href) = true →
  waiting s = [] →
  let plain :=
    classList_contains "nav-link" (target_classList target)
    && negb (bool_decide (data_bs_toggle target = Some "dropdown"))
    || classList_contains "dropdown-item" (target_classList target) in
  ∃ s1,
    clickInMenu p nb href target s = Done s1
    ∧ log (onHidden s1)
      = log s ++ PreventDefault
          :: (if plain then [Hide] else []) ++ [ScrollIntoView (substring_1 href)].
Proof.
  intros Hn Hc Hshow H1 H2 Hid Hw plain. unfold clickInMenu, handleAnchorClick.
  apply String.eqb_neq in H1, H2. rewrite H1, H2, Hid, Hn, Hc, Hshow.
  unfold onCollapseClick. rewrite Hc, Hshow. fold plain.
  eexists. split; [reflexivity|].
  destruct plain; unfold onHidden; cbn; rewrite Hw; cbn;
    by rewrite <- ?app_assoc.
Qed.

Lemma clickInMenu_hides_then_scrolls_witness :
  let nb := {| navbar_collapse := Some ["navbar-collapse"; "show"] |} in
  let p := {| navbar := Some nb; ids := ["contact"] |} in
  let s := {| log := []; waiting := [] |} in
  let link := {| target_classList := ["nav-link"]; data_bs_toggle := None |} in
  getElementById p (substring_1 "#contact") = true
  ∧ ∃ s1, clickInMenu p nb "#contact" link s = Done s1
          ∧ log (onHidden s1) = [PreventDefault; Hide; ScrollIntoView "contact"].
Proof.
  intros nb p s link. split; [reflexivity|].
  destruct (clickInMenu_hides_then_scrolls p nb ["navbar-collapse"; "show"]
              "#contact" link s eq_refl eq_refl eq_refl) as (s1 & H1 & H2);
    try done.
  exists s1. split; [exact H1 | exact H2].
Defined.

End NavigationProps.

(* ================================================================== *)
(** ** Properties of the copy button *)
(* ================================================================== *)

Module CodeBlockManagerProps.

Import JS CodeBlockManager.

Lemma run_snoc (evs : list event) (ev : event) (s : State) :
  run (evs ++ [ev]) s = step ev (run evs s).
Proof. unfold run. by rewrite fold_left_app. Qed.

(** Whatever happened, the button differs from the created one at most in
    its label and in the class [copied]. *)
Lemma reachable_shape (evs : list event) :
  classList_remove "copied" (classList (button (run evs created))) = ["copy-code-btn"]
  ∧ attributes (button (run evs created)) = attributes createCopyButton.
Proof.
  induction evs as [|ev evs IH] using rev_ind; [done|].
  rewrite run_snoc. destruct IH as [Hc Ha].
  destruct ev; cbn [step].
  - cbn [button classList attributes]. split; [|done].
    by rewrite BreakpointLayoutProps.classList_remove_add.
  - done.
  - destruct (timers (run evs created)); [done|].
    cbn [button classList attributes]. split; [|done].
    by rewrite ThemeManagerProps.classList_remove_idemp.
Qed.

(** X20: the feedback is undone completely.  Whatever copies succeeded or
    failed before, when a pending timer fires the button is again exactly the
    button [createCopyButton] made: label, classes and attributes. *)
Theorem timer_restores_created_button (evs : list event) :
  0 < timers (run evs created) →
  button (run (evs ++ [Timer]) created) = createCopyButton.
Proof.
  intros Ht. rewrite run_snoc. cbn [step].
  destruct (timers (run evs created)) as [|k]; [lia|].
  destruct (reachable_shape evs) as [Hc Ha].
  cbn [button]. rewrite Hc, Ha. reflexivity.
Qed.

Lemma timer_restores_created_button_witness :
  0 < timers (run [Copied; CopyFailed; Copied] created)
  ∧ button (run ([Copied; CopyFailed; Copied] ++ [Timer]) created) = createCopyButton.
Proof.
  assert (0 < timers (run [Copied; CopyFailed; Copied] created)) as H
    by (cbn; lia).
  split; [exact H|].
  exact (timer_restores_created_button [Copied; CopyFailed; Copied] H).
Defined.

Lemma timer_without_pending (k : nat) (s : State) :
  timers s = 0 → run (replicate k Timer) s = s.
Proof.
  intros Ht. induction k as [|k IH]; [done|].
  cbn [replicate]. unfold run in *. cbn [fold_left].
  assert (step Timer s = s) as -> by (unfold step; by rewrite Ht).
  exact IH.
Qed.

(** X21: a failed copy sets no timer.  When it happens with no timer
    pending, the label [Erreur] is there to stay: a timer tick changes
    nothing, and only the feedback of a later successful copy replaces it. *)
Theorem error_label_is_not_reverted (evs : list event) :
  timers (run evs created) = 0 →
  let s := run (evs ++ [CopyFailed]) created in
  innerHTML (button s) = "Erreur"
  ∧ timers s = 0
  ∧ ∀ k, run (replicate k Timer) s = s.
Proof.
  intros Ht s.
  assert (timers s = 0) as Hs by (unfold s; by rewrite run_snoc).
  split; [unfold s; by rewrite run_snoc|]. split; [exact Hs|].
  intros k. by apply timer_without_pending.
Qed.

Lemma error_label_is_not_reverted_witness :
  timers (run [Copied; Timer] created) = 0
  ∧ innerHTML (button (run ([Copied; Timer] ++ [CopyFailed; Timer; Timer]) created))
    = "Erreur".
Proof.
  assert (timers (run [Copied; Timer] created) = 0) as H by reflexivity.
  split; [exact H|].
  pose proof (error_label_is_not_reverted [Copied; Timer] H) as (H1 & _ & H3).
  change (run ([Copied; Timer] ++ [CopyFailed; Timer; Timer]) created)
    with (run (replicate 2 Timer) (run ([Copied; Timer] ++ [CopyFailed]) created)).
  rewrite H3. exact H1.
Defined.

End CodeBlockManagerProps.

(* ================================================================== *)
(** ** Properties of the contact form *)
(* ================================================================== *)

Module ContactFormProps.

Import JS ContactForm.

(** The listener on a valid form with a submit button, in two halves. *)
Lemma onSubmit_valid_unfold (supabase : option client) (rpc : Args → rpc_response)
    (w : World) (b : SubmitButton) :
  checkValidity (form w) (values (form w)) = true →
  submitButton (form w) = Some b →
  onSubmit supabase rpc w
  = Completed
      (settle (innerHTML b)
         (submitContactForm supabase rpc (args_of (form w)) (in_flight w)).1
         (submitContactForm supabase rpc (args_of (form w)) (in_flight w)).2).
Proof.
  intros Hv Hb. unfold onSubmit, in_flight, settle, args_of.
  cbn [with_form form values set_classList checkValidity console_write
       submitButton]. rewrite Hv, Hb. cbn [negb].
  by destruct (submitContactForm _ _ _ _) as [o w2].
Qed.

Lemma submitContactForm_cases (supabase : option client) (rpc : Args → rpc_response)
    (a : Args) (w : World) :
  let r := submitContactForm supabase rpc a w in
  form r.2 = form w ∧ alerts r.2 = alerts w
  ∧ (supabase = None → rpc_calls r.2 = rpc_calls w
       ∧ r.1 = WithError {| message := Some "Supabase client not available." |})
  ∧ ((∃ d, r.1 = WithData d) ↔ succeeds supabase rpc a = true).
Proof.
  unfold submitContactForm, succeeds.
  destruct supabase as [c|]; [destruct (rpc a) as [d [e|]|]|]; cbn;
    (split; [done|]); (split; [done|]); (split; [done|]);
    split; try done; try (intros [d' [=]]); eauto.
Qed.

(** X22: whatever the remote end does (an answer without error, an answer
    with an error, a rejected promise) and whether or not a client exists,
    a submission of a valid form runs to its end, shows exactly one alert,
    and leaves the submit button enabled with the markup it had before. *)
Theorem onSubmit_restores_button (supabase : option client)
    (rpc : Args → rpc_response) (w : World) (b : SubmitButton) :
  checkValidity (form w) (values (form w)) = true →
  submitButton (form w) = Some b →
  ∃ w', onSubmit supabase rpc w = Completed w'
    ∧ submitButton (form w') = Some {| disabled := false; innerHTML := innerHTML b |}
    ∧ length (alerts w') = S (length (alerts w)).
Proof.
  intros Hv Hb.
  rewrite (onSubmit_valid_unfold supabase rpc w b Hv Hb).
  eexists. split; [reflexivity|]. split; [reflexivity|].
  pose proof (submitContactForm_cases supabase rpc (args_of (form w)) (in_flight w))
    as (_ & Ha2 & _). cbn zeta in Ha2.
  destruct (submitContactForm _ _ _ _) as [o w2]. cbn [fst snd] in *.
  destruct o; cbn; rewrite length_app, Ha2; cbn; lia.
Qed.

Lemma onSubmit_restores_button_witness :
  let b := {| disabled := false; innerHTML := "Envoyer" |} in
  let w := {| form := {| classList := ["needs-validation"];
                         values := {[ "name" := "Ada" ]};
                         defaults := ∅;
                         checkValidity := λ _, true;
                         submitButton := Some b |};
              alerts := []; console := []; rpc_calls := [] |} in
  checkValidity (form w) (values (form w)) = true
  ∧ ∃ w', onSubmit (Some SupabaseClient) (λ _, Rejected) w = Completed w'
          ∧ submitButton (form w') = Some b.
Proof.
  intros b w. split; [reflexivity|].
  destruct (onSubmit_restores_button (Some SupabaseClient) (λ _, Rejected) w b
              eq_refl eq_refl) as (w' & H1 & H2 & _).
  exists w'. split; [exact H1 | exact H2].
Defined.

(** X23: a submission of a form that fails [checkValidity] stops at once:
    the class [was-validated] is added and nothing else happens; no remote
    call, no alert, the values and the submit button stay as they are. *)
Theorem onSubmit_invalid_stops (supabase : option client)
    (rpc : Args → rpc_response) (w : World) :
  checkValidity (form w) (values (form w)) = false →
  ∃ w', onSubmit supabase rpc w = Completed w'
    ∧ form w' = set_classList (classList_add "was-validated" (classList (form w)))
                  (form w)
    ∧ alerts w' = alerts w
    ∧ rpc_calls w' = rpc_calls w.
Proof.
  intros Hv. unfold onSubmit. cbn [with_form form values set_classList
    checkValidity]. rewrite Hv. cbn [negb]. by eexists.
Qed.

Lemma onSubmit_invalid_stops_witness :
  let w := {| form := {| classList := [];
                         values := ∅;
                         defaults := ∅;
                         checkValidity := λ v, bool_decide (is_Some (v !! "name"));
                         submitButton := None |};
              alerts := []; console := []; rpc_calls := [] |} in
  checkValidity (form w) (values (form w)) = false
  ∧ ∃ w', onSubmit (Some SupabaseClient) (λ _, Resolved None None) w = Completed w'
          ∧ rpc_calls w' = [] ∧ classList (form w') = ["was-validated"].
Proof.
  intros w.
  assert (checkValidity (form w) (values (form w)) = false) as H
    by (vm_compute; reflexivity).
  split; [exact H|].
  destruct (onSubmit_invalid_stops (Some SupabaseClient)
              (λ _, Resolved None None) w H) as (w' & H1 & H2 & _ & H4).
  exists w'. split; [exact H1|]. split; [exact H4|]. by rewrite H2.
Defined.

(** X24: the form is reset, and [was-validated] removed, only when the
    submission went through (a client exists and the remote end answered
    without error).  In every other case the values typed in are kept and
    the form stays marked [was-validated], ready for another try. *)
Theorem onSubmit_resets_on_success_only (supabase : option client)
    (rpc : Args → rpc_response) (w : World) (b : SubmitButton) :
  checkValidity (form w) (values (form w)) = true →
  submitButton (form w) = Some b →
  let w' := world_of (onSubmit supabase rpc w) in
  if succeeds supabase rpc (args_of (form w))
  then values (form w') = defaults (form w)
       ∧ classList_contains "was-validated" (classList (form w')) = false
  else values (form w') = values (form w)
       ∧ classList_contains "was-validated" (classList (form w')) = true.
Proof.
  intros Hv Hb w'. unfold w'.
  rewrite (onSubmit_valid_unfold supabase rpc w b Hv Hb).
  pose proof (submitContactForm_cases supabase rpc (args_of (form w)) (in_flight w))
    as (Hf2 & _ & _ & Hok). cbn zeta in Hf2, Hok.
  destruct (submitContactForm _ _ _ _) as [o w2]. cbn [fst snd world_of] in *.
  destruct (succeeds supabase rpc (args_of (form w))) eqn:E.
  - destruct (proj2 Hok eq_refl) as [d ->]. cbn. rewrite Hf2. cbn.
    split; [done|].
    apply DynamicNavbarBreakpointProps.classList_contains_remove.
  - destruct o as [e|d|]; cbn; rewrite ?Hf2; cbn.
    + split; [done|].
      apply DynamicNavbarBreakpointProps.classList_contains_add.
    + assert (false = true) by (apply Hok; eauto). done.
    + split; [done|].
      apply DynamicNavbarBreakpointProps.classList_contains_add.
Qed.

Lemma onSubmit_resets_on_success_only_witness :
  let b := {| disabled := false; innerHTML := "Envoyer" |} in
  let w := {| form := {| classList := [];
                         values := {[ "name" := "Ada" ]};
                         defaults := ∅;
                         checkValidity := λ _, true;
                         submitButton := Some b |};
              alerts := []; console := []; rpc_calls := [] |} in
  let failing := λ _ : Args, Resolved None (Some {| message := Some "down" |}) in
  checkValidity (form w) (values (form w)) = true
  ∧ values (form (world_of (onSubmit (Some SupabaseClient) failing w)))
    = {[ "name" := "Ada" ]}.
Proof.
  intros b w failing. split; [reflexivity|].
  exact (proj1 (onSubmit_resets_on_success_only (Some SupabaseClient) failing w b
                  eq_refl eq_refl)).
Defined.

(** X25: when no client could be made (no mock, and the library or a
    credential is missing or [createClient] throws), [init] leaves
    [this.supabase] null and logs one error; a later submission of a valid
    form then makes no remote call and alerts
    [Supabase client not available.] *)
Theorem init_failure_blocks_submission (g : Globals) (rpc : Args → rpc_response)
    (w : World) (b : SubmitButton) :
  MockSupabaseManager g = false →
  supabase_library g = false ∨ SUPABASE_URL g = false ∨ SUPABASE_KEY g = false
  ∨ createClient_throws g = true →
  checkValidity (form w) (values (form w)) = true →
  submitButton (form w) = Some b →
  (init g).1 = None
  ∧ (∃ msg, (init g).2 = [(Error, msg)])
  ∧ let w' := world_of (onSubmit (init g).1 rpc w) in
    rpc_calls w' = rpc_calls w
    ∧ alerts w'
      = alerts w ++ ["Une erreur est survenue: Supabase client not available."].
Proof.
  intros Hm Hg Hv Hb.
  assert ((init g).1 = None ∧ ∃ msg, (init g).2 = [(Error, msg)]) as [Hn Hl].
  { unfold init. rewrite Hm.
    destruct (supabase_library g); cbn; [|eauto].
    destruct (SUPABASE_URL g); cbn; [|eauto].
    destruct (SUPABASE_KEY g); cbn; [|eauto].
    destruct (createClient_throws g); cbn; [eauto|].
    destruct Hg as [? | [? | [? | ?]]]; done. }
  split; [exact Hn|]. split; [exact Hl|]. rewrite Hn.
  rewrite (onSubmit_valid_unfold None rpc w b Hv Hb).
  pose proof (submitContactForm_cases None rpc (args_of (form w)) (in_flight w))
    as (_ & Ha2 & Hnone & _). cbn zeta in Ha2, Hnone.
  destruct (submitContactForm _ _ _ _) as [o w2]. cbn [fst snd world_of] in *.
  destruct (Hnone eq_refl) as [Hr2 ->]. cbn. by rewrite Hr2, Ha2.
Qed.

Lemma init_failure_blocks_submission_witness :
  let g := {| MockSupabaseManager := false; supabase_library := true;
              SUPABASE_URL := true; SUPABASE_KEY := false;
              createClient_throws := false |} in
  let b := {| disabled := false; innerHTML := "Envoyer" |} in
  let w := {| form := {| classList := []; values := ∅; defaults := ∅;
                         checkValidity := λ _, true;
                         submitButton := Some b |};
              alerts := []; console := []; rpc_calls := [] |} in
  SUPABASE_KEY g = false
  ∧ rpc_calls (world_of (onSubmit (init g).1 (λ _, Resolved None None) w)) = [].
Proof.
  intros g b w. split; [reflexivity|].
  exact (proj1 (proj2 (proj2 (init_failure_blocks_submission g
           (λ _, Resolved None None) w b eq_refl
           (or_intror (or_intror (or_introl eq_refl))) eq_refl eq_refl)))).
Defined.

End ContactFormProps.

(* ================================================================== *)
(** ** Properties of the contact page script *)
(* ================================================================== *)

Module ContactValidationProps.

Import JS ContactValidation.

(** *** The rules, control by control *)

Lemma field_valid_validate_name (f : Field) :
  field_valid (validate_name f)
  = builtin f (value f) && (1 <=? List.length (trim (value f)))%nat.
Proof.
  unfold validate_name, field_valid. cbn [setCustomValidity value].
  rewrite Nat.ltb_antisym.
  destruct (1 <=? List.length (trim (value f)))%nat; cbn [negb]; [done|].
  cbn [setCustomValidity customValidity builtin value]. by rewrite !andb_false_r.
Qed.

Lemma field_valid_validate_subject (f : Field) :
  field_valid (validate_subject f)
  = builtin f (value f) && (5 <=? List.length (trim (value f)))%nat.
Proof.
  unfold validate_subject, field_valid. cbn [setCustomValidity value].
  rewrite Nat.ltb_antisym.
  destruct (5 <=? List.length (trim (value f)))%nat; cbn [negb]; [done|].
  cbn [setCustomValidity customValidity builtin value]. by rewrite !andb_false_r.
Qed.

Lemma field_valid_validate_message (f : Field) :
  field_valid (validate_message f)
  = builtin f (value f) && (10 <=? List.length (trim (value f)))%nat.
Proof.
  unfold validate_message, field_valid. cbn [setCustomValidity value].
  rewrite Nat.ltb_antisym.
  destruct (10 <=? List.length (trim (value f)))%nat; cbn [negb]; [done|].
  cbn [setCustomValidity customValidity builtin value]. by rewrite !andb_false_r.
Qed.

Lemma field_valid_validate_phone (f : Field) :
  field_valid (validate_phone f)
  = builtin f (value f) && phonePattern_test (trim (value f)).
Proof.
  unfold validate_phone, field_valid. cbn [setCustomValidity value].
  case_bool_decide as He; cbn.
  - rewrite He. cbn. by rewrite andb_false_r.
  - destruct (phonePattern_test (trim (value f))); cbn; [done|].
    by rewrite andb_false_r.
Qed.

Lemma checkValidity_validate (p : Page) :
  checkValidity (validate p) = builtins_pass p && rules_pass p.
Proof.
  unfold checkValidity, validate, builtins_pass, rules_pass.
  cbn [nameInput emailInput phoneInput subjectInput messageInput phone_in_form].
  rewrite field_valid_validate_name, field_valid_validate_subject,
    field_valid_validate_message, field_valid_validate_phone.
  unfold field_valid. cbn [setCustomValidity value builtin customValidity].
  destruct (builtin (nameInput p) _), (builtin (emailInput p) _),
    (builtin (phoneInput p) _), (builtin (subjectInput p) _),
    (builtin (messageInput p) _), (phone_in_form p),
    (phonePattern_test _), (1 <=? _)%nat, (5 <=? _)%nat, (10 <=? _)%nat; done.
Qed.

Lemma onSubmit_cases (p : Page) :
  onSubmit p
  = if builtins_pass p && rules_pass p
    then start_submission (validate p) else validate p.
Proof.
  unfold onSubmit. rewrite checkValidity_validate.
  by destruct (builtins_pass p && rules_pass p).
Qed.

(** X26: a submit starts the (simulated) call exactly when the built-in
    constraints hold and the trimmed values pass the rules: a name of at
    least 1 code unit, a subject of at least 5, a message of at least 10 and,
    when the phone control belongs to the form, a phone of 10 to 15 digits.
    Then a timer is set and the button disabled; otherwise neither happens.
    Custom messages left by an earlier attempt play no part. *)
Theorem onSubmit_starts_iff_rules (p : Page) :
  let passes := builtins_pass p && rules_pass p in
  onSubmit p = (if passes then start_submission (validate p) else validate p)
  ∧ timers (onSubmit p) = (if passes then S (timers p) else timers p)
  ∧ disabled (submitButton (onSubmit p))
    = (if passes then true else disabled (submitButton p)).
Proof.
  intros passes. rewrite onSubmit_cases. fold passes.
  by destruct passes.
Qed.

(** *** Trimming *)

Lemma is_digit_not_space (c : N) : is_digit c = true → is_space c = false.
Proof.
  unfold is_digit, is_space. intros H.
  apply andb_true_iff in H as [H1 H2].
  apply N.leb_le in H1, H2.
  apply orb_false_iff. split.
  - apply bool_decide_eq_false_2. rewrite !elem_of_cons, elem_of_nil. lia.
  - apply andb_false_iff. left. apply N.leb_gt. lia.
Qed.

Lemma trimStart_spaces (l s : ustring) :
  Forall (λ c, is_space c = true) l → trimStart (l ++ s) = trimStart s.
Proof. induction 1 as [|c l Hc _ IH]; [done|]. cbn. by rewrite Hc. Qed.

Lemma trimStart_solid (c : N) (s : ustring) :
  is_space c = false → trimStart (c :: s) = c :: s.
Proof. intros Hc. cbn. by rewrite Hc. Qed.

Lemma trim_padded (l ds r : ustring) :
  ds ≠ [] →
  Forall (λ c, is_space c = true) l → Forall (λ c, is_space c = true) r →
  Forall (λ c, is_digit c = true) ds →
  trim (l ++ ds ++ r) = ds.
Proof.
  intros Hne Hl Hr Hds. unfold trim.
  rewrite trimStart_spaces by done.
  destruct ds as [|d ds]; [done|].
  apply Forall_cons in Hds as Hd. destruct Hd as [Hd _].
  change ((d :: ds) ++ r) with (d :: (ds ++ r)).
  rewrite trimStart_solid by (by apply is_digit_not_space).
  change (d :: (ds ++ r)) with ((d :: ds) ++ r).
  rewrite reverse_app, trimStart_spaces by (by apply Forall_reverse).
  assert (∃ e es, reverse (d :: ds) = e :: es ∧ is_digit e = true)
    as (e & es & Hrev & He).
  { apply Forall_reverse in Hds.
    destruct (reverse (d :: ds)) as [|e es] eqn:E.
    - apply (f_equal reverse) in E. rewrite reverse_involutive in E. done.
    - apply Forall_cons in Hds as [He _]. eauto. }
  rewrite Hrev, trimStart_solid by (by apply is_digit_not_space).
  by rewrite <- Hrev, reverse_involutive.
Qed.

(** X27: white space around a phone number does not count.  A value made
    of 10 to 15 digits, with any white space before and after, gets no
    custom message from the validation, whatever message the control carried
    before. *)
Theorem validate_phone_accepts_padded_digits (l ds r : ustring) (f : Field) :
  Forall (λ c, is_space c = true) l → Forall (λ c, is_space c = true) r →
  Forall (λ c, is_digit c = true) ds →
  (10 ≤ List.length ds ≤ 15)%nat →
  customValidity (validate_phone (set_value (l ++ ds ++ r) f)) = EmptyString.
Proof.
  intros Hl Hr Hds Hlen.
  assert (ds ≠ []) as Hne by (intros ->; cbn in Hlen; lia).
  unfold validate_phone. cbn [setCustomValidity set_value value].
  rewrite (trim_padded l ds r Hne Hl Hr Hds).
  rewrite bool_decide_eq_false_2 by done.
  assert (phonePattern_test ds = true) as ->; [|done].
  unfold phonePattern_test.
  rewrite (proj2 (forallb_forall is_digit ds)).
  - cbn [andb]. apply andb_true_iff. split; apply Nat.leb_le; lia.
  - intros c Hc. rewrite Forall_forall in Hds. apply Hds.
    by apply list_elem_of_In.
Qed.

Lemma validate_phone_accepts_padded_digits_witness :
  let l := [32; 9]%N in
  let ds := [48; 54; 49; 50; 51; 52; 53; 54; 55; 56]%N in
  let r := [160]%N in
  let f := {| value := []; defaultValue := [];
              customValidity := "Veuillez entrer votre numéro de téléphone.";
              builtin := λ _, true |} in
  Forall (λ c, is_space c = true) l
  ∧ Forall (λ c, is_digit c = true) ds
  ∧ customValidity (validate_phone (set_value (l ++ ds ++ r) f)) = EmptyString.
Proof.
  intros l ds r f.
  assert (Forall (λ c, is_space c = true) l) as Hl by (repeat constructor).
  assert (Forall (λ c, is_space c = true) r) as Hr by (repeat constructor).
  assert (Forall (λ c, is_digit c = true) ds) as Hds by (repeat constructor).
  assert (10 ≤ List.length ds ≤ 15)%nat as Hlen by (cbn; lia).
  split; [exact Hl|]. split; [exact Hds|].
  exact (validate_phone_accepts_padded_digits l ds r f Hl Hr Hds Hlen).
Defined.

(** *** The simulated call *)

Lemma errorMessage_step (ev : event) (p : Page) :
  errorMessage_display (step ev p) = errorMessage_display p
  ∨ errorMessage_display (step ev p) = "none".
Proof.
  destruct ev as [c v| |]; cbn.
  - by left.
  - unfold onSubmit. destruct (negb (checkValidity (validate p))); [by left|by right].
  - unfold onTimer. destruct (timers p); by left.
Qed.

(** X28: the script never shows the error message.  Whatever is typed,
    however often the form is submitted and timers fire, the [display] of
    [#contact-error-message] is what it was at the start or [none]; the
    branch that would set it to [block] cannot run, because the simulated
    call always resolves. *)
Theorem error_message_never_shown (evs : list event) (p : Page) :
  errorMessage_display (run evs p) = errorMessage_display p
  ∨ errorMessage_display (run evs p) = "none".
Proof.
  revert p. induction evs as [|ev evs IH]; intros p; [by left|].
  change (run (ev :: evs) p) with (run evs (step ev p)).
  destruct (IH (step ev p)) as [H | H]; [|by right].
  rewrite H. apply errorMessage_step.
Qed.

Lemma defaultValue_validate (p : Page) :
  defaultValue (nameInput (validate p)) = defaultValue (nameInput p)
  ∧ defaultValue (emailInput (validate p)) = defaultValue (emailInput p)
  ∧ defaultValue (subjectInput (validate p)) = defaultValue (subjectInput p)
  ∧ defaultValue (messageInput (validate p)) = defaultValue (messageInput p).
Proof.
  unfold validate, validate_name, validate_subject, validate_message.
  cbn [nameInput emailInput subjectInput messageInput setCustomValidity value].
  repeat split; try done;
    match goal with |- context [(?a <? ?b)%nat] => by destruct (a <? b)%nat end.
Qed.

(** X29: a submission that passes validation, followed by its timer, ends
    in the success state: the success message is shown and the error message
    hidden, the controls of the form are back at their default values, the
    class [was-validated] is gone, and the button is enabled again, with the
    fixed send markup whatever markup it had before. *)
Theorem submission_round_trip (p : Page) :
  builtins_pass p && rules_pass p = true →
  let p' := run [Submit; TimerFired] p in
  successMessage_display p' = "block"
  ∧ errorMessage_display p' = "none"
  ∧ value (nameInput p') = defaultValue (nameInput p)
  ∧ value (emailInput p') = defaultValue (emailInput p)
  ∧ value (subjectInput p') = defaultValue (subjectInput p)
  ∧ value (messageInput p') = defaultValue (messageInput p)
  ∧ classList_contains "was-validated" (classList p') = false
  ∧ submitButton p' = {| disabled := false; innerHTML := send_markup |}
  ∧ timers p' = timers p.
Proof.
  intros Hok p'. unfold p', run. cbn [fold_left step].
  rewrite onSubmit_cases, Hok.
  destruct (defaultValue_validate p) as (H1 & H2 & H3 & H4).
  unfold onTimer, start_submission. cbn [timers].
  cbn [successMessage_display errorMessage_display nameInput emailInput
       subjectInput messageInput classList submitButton timers reset_field value].
  rewrite H1, H2, H3, H4. repeat split.
  apply DynamicNavbarBreakpointProps.classList_contains_remove.
Qed.

Lemma submission_round_trip_witness :
  let filled (v : ustring) :=
    {| value := v; defaultValue := []; customValidity := "stale";
       builtin := λ s, negb (bool_decide (s = [])) |} in
  let digits := [48; 54; 49; 50; 51; 52; 53; 54; 55; 56]%N in
  let p := {| nameInput := filled [65; 100; 97]%N;
              emailInput := filled [97; 64; 98; 46; 99]%N;
              phoneInput := filled digits;
              subjectInput := filled [72; 101; 108; 108; 111]%N;
              messageInput := filled (digits ++ digits);
              phone_in_form := true;
              classList := ["needs-validation"];
              submitButton := {| disabled := false; innerHTML := "Envoyer" |};
              successMessage_display := "none";
              errorMessage_display := "none";
              timers := 0 |} in
  builtins_pass p && rules_pass p = true
  ∧ successMessage_display (run [Submit; TimerFired] p) = "block"
  ∧ value (messageInput (run [Submit; TimerFired] p)) = [].
Proof.
  intros filled digits p.
  assert (builtins_pass p && rules_pass p = true) as H by (vm_compute; reflexivity).
  split; [exact H|].
  pose proof (submission_round_trip p H) as (H1 & _ & _ & _ & _ & H6 & _).
  split; [exact H1 | exact H6].
Defined.

End ContactValidationProps.
